(** * Task router: job state, stage dispatch, event consumer, HTTP intake

    A shallow embedding of the orchestrator of the five-stage pipeline
    (research, product_manager, drawer, designer, coder):

    - [JobStateManager]   task-router/src/services/job-state.ts
    - [S3Storage]         task-router/src/services/storage.ts
    - [SQSMessaging]      task-router/src/services/messaging.ts
    - [TaskRouter]        task-router/src/graph.ts
    - [TaskRouterApp]     task-router/src/index.ts
    - [APIServer]         task-router/src/api.ts
    - [WebJobs]           agent-web's POST /api/jobs route and its limiter

    Conventions of the embedding.
    - A [Date] is its [getTime()] value, a [Z] of milliseconds; every
      operation that reads the clock takes the reading as [now].
    - A JavaScript [Map] keyed by strings is a [gmap string _]; a record
      held in the map is mutated in place in the source, which is an
      [insert] at the record's key here.
    - Asynchronous code is run to completion in program order.
    - S3 is a key-value store whose [getObject] fails exactly on an absent
      key; SQS is the trace of [sendMessage] and [deleteMessage] calls.
      Transport failures of either service are outside the model.
    - The value the bucket holds under a key stands for the JSON text of
      the object, which is what [JSON.stringify] makes of the value
      written; a field that is undefined has no place in that text, so
      the value read back need not be the value written, and nothing
      below relies on it being so.
    - A string is a sequence of characters below 256; the header values
      of a request arrive as such strings, one character for each byte.
    - Logger calls and Prometheus counters do not influence control flow
      and are left out. *)

From Stdlib Require Import ZArith Ascii String List Bool Lia.
From stdpp Require Import base option list gmap strings fin_maps.

Local Open Scope string_scope.
Local Open Scope Z_scope.

(** ** types.ts *)

Inductive Status := queued | in_progress | completed | failed.

#[global] Instance Status_eq_dec : EqDecision Status.
Proof. solve_decision. Defined.

(** [JobStatus]; the optional [currentTask] is never written or read. *)
Record JobStatus := mkJobStatus {
  jobId : string;
  status : Status;
  completedTasks : list string;
  startedAt : Z;
  completedAt : option Z;
  error : option string
}.

(** The [status] field of a [CompletionEvent]. *)
Inductive EventStatus := st_success | st_failure | st_error | st_in_progress.

#[global] Instance EventStatus_eq_dec : EqDecision EventStatus.
Proof. solve_decision. Defined.

(** [CompletionEvent]; [ev_status] and [ev_error] are the source's [status]
    and [error], renamed apart from the fields of [JobStatus]. The fields
    [result], [result_key] and [timestamp] are never read by the router. *)
Record CompletionEvent := mkEvent {
  job_id : string;
  task_type : string;
  ev_status : EventStatus;
  ev_error : option string
}.

(** ** services/job-state.ts *)

Module JobStateManager.

(** [Array.prototype.includes] on an array of strings. *)
Definition includes (l : list string) (x : string) : bool :=
  bool_decide (x ∈ l).

Definition requiredTasks : list string :=
  ["research"; "product_manager"; "drawer"; "designer"; "coder"].

Definition set_status (s : Status) (job : JobStatus) : JobStatus :=
  mkJobStatus (jobId job) s (completedTasks job) (startedAt job)
              (completedAt job) (error job).

Definition set_error (e : option string) (job : JobStatus) : JobStatus :=
  mkJobStatus (jobId job) (status job) (completedTasks job) (startedAt job)
              (completedAt job) e.

Definition set_completedAt (t : Z) (job : JobStatus) : JobStatus :=
  mkJobStatus (jobId job) (status job) (completedTasks job) (startedAt job)
              (Some t) (error job).

Definition push (task : string) (job : JobStatus) : JobStatus :=
  mkJobStatus (jobId job) (status job) (completedTasks job ++ [task])
              (startedAt job) (completedAt job) (error job).

(** [createJob]: a fresh record is [set] under the id, whatever the map
    held there. *)
Definition createJob (now : Z) (id : string) (jobs : gmap string JobStatus)
  : gmap string JobStatus :=
  <[id := mkJobStatus id queued [] now None None]> jobs.

(** [startJob]: [None] stands for the thrown "Job not found". *)
Definition startJob (id : string) (jobs : gmap string JobStatus)
  : option (gmap string JobStatus) :=
  match jobs !! id with
  | None => None
  | Some job => Some (<[id := set_status in_progress job]> jobs)
  end.

(** The success branch of [completeTask] up to the completeness test. *)
Definition addTask (task : string) (job : JobStatus) : JobStatus :=
  if includes (completedTasks job) task then job else push task job.

Definition allTasksComplete (job : JobStatus) : bool :=
  forallb (includes (completedTasks job)) requiredTasks.

(** [completeTask]: the new map and the returned boolean. *)
Definition completeTask (now : Z) (event : CompletionEvent)
           (jobs : gmap string JobStatus) : gmap string JobStatus * bool :=
  match jobs !! job_id event with
  | None => (jobs, false)
  | Some job =>
      match ev_status event with
      | st_in_progress => (jobs, false)
      | st_failure | st_error =>
          (<[job_id event :=
               set_completedAt now (set_error (ev_error event)
                                      (set_status failed job))]> jobs, true)
      | st_success =>
          let job := addTask (task_type event) job in
          if allTasksComplete job
          then (<[job_id event :=
                    set_completedAt now (set_status completed job)]> jobs,
                true)
          else (<[job_id event := job]> jobs, false)
      end
  end.

Definition getJob (id : string) (jobs : gmap string JobStatus)
  : option JobStatus := jobs !! id.

(** The test of the [cleanup] loop: the age counts from [startedAt]. *)
Definition expired (now maxAge : Z) (job : JobStatus) : bool :=
  (maxAge <? now - startedAt job)
  && (bool_decide (status job = completed)
      || bool_decide (status job = failed)).

Definition defaultMaxAge : Z := 24 * 60 * 60 * 1000.

(** [cleanup]: the ids collected by the first loop are deleted by the
    second, which leaves the records that fail the test. *)
Definition cleanup (now maxAge : Z) (jobs : gmap string JobStatus)
  : gmap string JobStatus :=
  filter (λ kv, expired now maxAge kv.2 = false) jobs.

(** [getAllJobs]; the order of a JavaScript [Map] is not kept. *)
Definition getAllJobs (jobs : gmap string JobStatus) : list JobStatus :=
  (map_to_list jobs).*2.

Record Stats := mkStats {
  total : nat;
  n_queued : nat;
  n_in_progress : nat;
  n_completed : nat;
  n_failed : nat
}.

Definition count_status (s : Status) (jobs : gmap string JobStatus) : nat :=
  length (filter (λ job, status job = s) (getAllJobs jobs)).

Definition getStats (jobs : gmap string JobStatus) : Stats :=
  mkStats (size jobs) (count_status queued jobs)
          (count_status in_progress jobs) (count_status completed jobs)
          (count_status failed jobs).

(** [isTaskCompleted]: [false] for a job the index does not hold. *)
Definition isTaskCompleted (id task : string) (jobs : gmap string JobStatus)
  : bool :=
  match jobs !! id with
  | Some job => includes (completedTasks job) task
  | None => false
  end.

(** [getNextTasks]: the chain of tests along
    research -> product_manager -> drawer -> designer -> coder. *)
Definition getNextTasks (id : string) (jobs : gmap string JobStatus)
  : list string :=
  match jobs !! id with
  | None => []
  | Some job =>
      let completedTasks := completedTasks job in
      if negb (includes completedTasks "research") then ["research"]
      else if negb (includes completedTasks "product_manager") then ["product_manager"]
      else if negb (includes completedTasks "drawer") then ["drawer"]
      else if negb (includes completedTasks "designer") then ["designer"]
      else if negb (includes completedTasks "coder") then ["coder"]
      else []
  end.

End JobStateManager.

(** ** The services the router talks to *)

(** JSON values as far as the router builds and stores them. *)
#[local] Unset Elimination Schemes.
Inductive Json :=
| JUndefined
| JString (s : string)
| JArray (items : list Json)
| JObject (fields : list (string * Json)).
#[local] Set Elimination Schemes.

(** The queue URLs of [config.queues]. *)
Inductive Queue :=
| routerJobs | events | research | designer | drawer | productManager | coder.

#[global] Instance Queue_eq_dec : EqDecision Queue.
Proof. solve_decision. Defined.

(** The [MessageBody] of the two kinds of message the router sends; the
    constant [source: 'task-router'] is left out. *)
Inductive MessageBody :=
| TaskBody (job_id task_type payload_key : string) (timestamp : Z)
| DoneBody (jobId : string) (timestamp : Z).   (* event_type: 'job_completed' *)

Record SentMessage := mkSent { QueueUrl : Queue; Body : MessageBody }.

Record World := mkWorld {
  jobs : gmap string JobStatus;     (* JobStateManager.jobs *)
  s3 : gmap string Json;            (* the artifact bucket *)
  sent : list SentMessage;          (* sqs.sendMessage calls, oldest first *)
  deleted : list string             (* receipt handles given to sqs.deleteMessage *)
}.

Definition set_jobs (f : gmap string JobStatus → gmap string JobStatus)
           (w : World) : World :=
  mkWorld (f (jobs w)) (s3 w) (sent w) (deleted w).

Inductive Error :=
| JobNotFound (id : string)
| NoSuchKey (key : string)
| UnknownTaskType (task : string)
| SyntaxError (raw : string)
| RouterResponded (code : Z).

Inductive Result (A : Type) :=
| Ok (a : A)
| Throw (e : Error).
Arguments Ok {A} a.
Arguments Throw {A} e.

(** Computations over the world that return or throw; the world a throwing
    computation leaves behind is kept, as side effects are in the source. *)
Definition M (A : Type) : Type := World → Result A * World.

Definition ret {A} (a : A) : M A := λ w, (Ok a, w).
Definition throw {A} (e : Error) : M A := λ w, (Throw e, w).
Definition bind {A B} (m : M A) (k : A → M B) : M B :=
  λ w, match m w with
       | (Ok a, w') => k a w'
       | (Throw e, w') => (Throw e, w')
       end.
Definition try_catch {A} (m : M A) (h : Error → M A) : M A :=
  λ w, match m w with
       | (Ok a, w') => (Ok a, w')
       | (Throw e, w') => h e w'
       end.

#[global] Instance M_ret : MRet M := @ret.
#[global] Instance M_bind : MBind M := λ A B k m, bind m k.

(** ** services/storage.ts *)

Module S3Storage.

(** [store]: the object under the key becomes the text
    [JSON.stringify(data, null, 2)]; the bucket records the value that
    text is made from. *)
Definition store (key : string) (data : Json) : M string :=
  λ w, (Ok key, mkWorld (jobs w) (<[key := data]> (s3 w)) (sent w) (deleted w)).

(** [get]: [JSON.parse] of the text under the key; an absent key throws. *)
Definition get (key : string) : M Json :=
  λ w, match s3 w !! key with
       | Some data => (Ok data, w)
       | None => (Throw (NoSuchKey key), w)
       end.

Definition storePayload (jobId task : string) (payload : Json) : M string :=
  store (jobId ++ "/" ++ task ++ ".json") payload.

Definition storeResult (jobId task : string) (result : Json) : M string :=
  store (jobId ++ "/" ++ task ++ "-result.json") result.

End S3Storage.

(** ** services/messaging.ts *)

Module SQSMessaging.

Definition sendMessage (q : Queue) (body : MessageBody) : M unit :=
  λ w, (Ok tt, mkWorld (jobs w) (s3 w) (sent w ++ [mkSent q body]) (deleted w)).

Definition deleteMessage (receiptHandle : string) : M unit :=
  λ w, (Ok tt, mkWorld (jobs w) (s3 w) (sent w) (deleted w ++ [receiptHandle])).

Definition getQueueUrl (task : string) : M Queue :=
  if String.eqb task "research" then ret research
  else if String.eqb task "designer" then ret designer
  else if String.eqb task "drawer" then ret drawer
  else if String.eqb task "product_manager" then ret productManager
  else if String.eqb task "coder" then ret coder
  else throw (UnknownTaskType task).

(** The payload goes to S3 before the message goes to the queue; the
    [catch] of the source only counts the failure and rethrows. *)
Definition sendTaskMessage (now : Z) (jobId task : string) (payload : Json)
  : M unit :=
  payloadKey ← S3Storage.storePayload jobId task payload;
  queueUrl ← getQueueUrl task;
  sendMessage queueUrl (TaskBody jobId task payloadKey now).

Definition publishDone (now : Z) (jobId : string) : M unit :=
  sendMessage events (DoneBody jobId now).

(** A message received from the events queue. Its body is text that
    [JSON.parse] rejects, or the JSON text of a [CompletionEvent]. *)
Inductive ReceivedBody :=
| Malformed (raw : string)
| EventJson (event : CompletionEvent).

Record Message := mkMessage {
  MessageId : string;
  ReceiptHandle : string;
  MsgBody : ReceivedBody
}.

Definition JSON_parse (body : ReceivedBody) : M CompletionEvent :=
  match body with
  | Malformed raw => throw (SyntaxError raw)
  | EventJson event => ret event
  end.

(** The body of the [for] loop of [consumeEvents]: parsing, the handler
    and the deletion sit in one [try]; its [catch] logs and goes on. *)
Definition consumeMessage (handler : CompletionEvent → M unit)
           (message : Message) : M unit :=
  try_catch
    (event ← JSON_parse (MsgBody message);
     handler event ;;
     deleteMessage (ReceiptHandle message))
    (λ _, ret tt).

(** One batch returned by [receiveMessage]; every message comes with the
    clock reading of the moment it is handled. *)
Fixpoint consumeEvents (handler : Z → CompletionEvent → M unit)
         (messages : list (Z * Message)) : M unit :=
  match messages with
  | [] => ret tt
  | (now, message) :: rest =>
      consumeMessage (handler now) message ;;
      consumeEvents handler rest
  end.

(** A message received from the router-jobs queue, as far as
    [consumeJobRequests] reads it: text that [JSON.parse] rejects, or an
    object with these fields, each a string when present. *)
Record JobRequestBody := mkJobRequestBody {
  rq_job_id : option string;
  rq_task_type : option string;
  rq_payload_key : option string;
  rq_product : option string;
  rq_audience : option string;
  rq_tone : option string
}.

Inductive ReceivedRequest :=
| MalformedRequest (raw : string)
| RequestJson (body : JobRequestBody).

Record RequestMessage := mkRequestMessage {
  RqMessageId : string;
  RqReceiptHandle : string;
  RqBody : ReceivedRequest
}.

(** The [job_spec] handed to the handler: the object fetched from the
    bucket, or the message body itself. *)
Inductive RequestSpec :=
| FromBucket (jobSpec : Json)
| Inline (messageBody : JobRequestBody).

Definition present (v : option string) : bool :=
  match v with Some s => negb (String.eqb s "") | None => false end.

Definition parseRequest (body : ReceivedRequest) : M JobRequestBody :=
  match body with
  | MalformedRequest raw => throw (SyntaxError raw)
  | RequestJson b => ret b
  end.

(** The body of the [for] loop of [consumeJobRequests]. A body of neither
    format is skipped by [continue]: no handler, no deletion. *)
Definition consumeJobRequest (handler : string → RequestSpec → M unit)
           (message : RequestMessage) : M unit :=
  try_catch
    (messageBody ← parseRequest (RqBody message);
     if present (rq_job_id messageBody)
        && bool_decide (rq_task_type messageBody = Some "start_job")
        && present (rq_payload_key messageBody)
     then
       jobSpec ← S3Storage.get (default "" (rq_payload_key messageBody));
       handler (default "" (rq_job_id messageBody)) (FromBucket jobSpec);;
       deleteMessage (RqReceiptHandle message)
     else if present (rq_job_id messageBody)
             && (present (rq_product messageBody) || present (rq_audience messageBody))
     then
       handler (default "" (rq_job_id messageBody)) (Inline messageBody);;
       deleteMessage (RqReceiptHandle message)
     else ret tt)
    (λ _, ret tt).

Fixpoint consumeJobRequests (handler : Z → string → RequestSpec → M unit)
         (messages : list (Z * RequestMessage)) : M unit :=
  match messages with
  | [] => ret tt
  | (now, message) :: rest =>
      consumeJobRequest (handler now) message;;
      consumeJobRequests handler rest
  end.

End SQSMessaging.

(** ** graph.ts *)

(** The body of a submission ([JobSpec]); an absent field is [None]. *)
Record JobSpec := mkJobSpec {
  product : option string;
  audience : option string;
  tone : option string;
  spec_job_id : option string      (* the source's optional [job_id] *)
}.

Definition json_of_field (v : option string) : Json :=
  match v with Some s => JString s | None => JUndefined end.

Module TaskRouter.

Definition payload (input : string * Json) (task : string)
           (instructions : list string) : Json :=
  JObject [input; ("task", JString task);
           ("instructions", JArray (JString <$> instructions))].

Definition executeResearchTask (now : Z) (jobId : string) (input : JobSpec)
  : M unit :=
  SQSMessaging.sendTaskMessage now jobId "research"
    (JObject
       [("product", json_of_field (product input));
        ("audience", json_of_field (audience input));
        ("tone", json_of_field (tone input));
        ("task", JString "research");
        ("instructions",
         JArray (JString <$>
           ["Analyze the target audience and their pain points";
            "Research competitors and their messaging strategies";
            "Identify key value propositions for the product";
            "Generate insights for content creation"]))]).

Definition executeJob (now : Z) (jobId : string) (input : JobSpec) : M unit :=
  executeResearchTask now jobId input.

Definition executeProductManagerTask (now : Z) (jobId : string) : M unit :=
  research ← S3Storage.get (jobId ++ "/research-result.json");
  SQSMessaging.sendTaskMessage now jobId "product_manager"
    (payload ("research", research) "product_manager"
       ["Analyze research findings and define product strategy";
        "Create detailed product requirements and specifications";
        "Define user personas and user journey";
        "Establish product positioning and messaging framework";
        "Create comprehensive product brief for design and development"]).

Definition executeDesignerTask (now : Z) (jobId : string) : M unit :=
  drawings ← S3Storage.get (jobId ++ "/drawer-result.json");
  SQSMessaging.sendTaskMessage now jobId "designer"
    (payload ("drawings", drawings) "designer"
       ["Create comprehensive design system and style guide based on visual mockups";
        "Design user interface layouts and wireframes";
        "Develop visual hierarchy and typography specifications";
        "Create color palette and branding guidelines";
        "Design responsive layouts for multiple screen sizes"]).

Definition executeDrawerTask (now : Z) (jobId : string) : M unit :=
  productSpec ← S3Storage.get (jobId ++ "/product-manager-result.json");
  SQSMessaging.sendTaskMessage now jobId "drawer"
    (payload ("productSpec", productSpec) "drawer"
       ["Create detailed visual mockups and prototypes based on product requirements";
        "Generate high-fidelity design assets and components";
        "Create interactive design elements and animations";
        "Develop comprehensive UI component library";
        "Prepare visual assets for design handoff"]).

Definition executeCodeTask (now : Z) (jobId : string) : M unit :=
  designSpec ← S3Storage.get (jobId ++ "/designer-result.json");
  SQSMessaging.sendTaskMessage now jobId "coder"
    (payload ("designSpec", designSpec) "coder"
       ["Create responsive HTML structure based on designs";
        "Implement modern CSS with pixel-perfect styling";
        "Add interactive elements and animations";
        "Ensure mobile-first responsive design";
        "Optimize for performance and user experience"]).

Definition completeJob (now : Z) (jobId : string) : M unit :=
  SQSMessaging.publishDone now jobId.

(** The [switch] on the finished task; the [default] case only warns. *)
Definition handleTaskCompletion (now : Z) (jobId taskType : string) : M unit :=
  if String.eqb taskType "research" then executeProductManagerTask now jobId
  else if String.eqb taskType "product_manager" then executeDrawerTask now jobId
  else if String.eqb taskType "drawer" then executeDesignerTask now jobId
  else if String.eqb taskType "designer" then executeCodeTask now jobId
  else if String.eqb taskType "coder" then completeJob now jobId
  else ret tt.

End TaskRouter.

(** ** index.ts *)

Module TaskRouterApp.

Definition createJob (now : Z) (id : string) : M unit :=
  λ w, (Ok tt, set_jobs (JobStateManager.createJob now id) w).

Definition startJob (id : string) : M unit :=
  λ w, match JobStateManager.startJob id (jobs w) with
       | Some jobs' => (Ok tt, set_jobs (λ _, jobs') w)
       | None => (Throw (JobNotFound id), w)
       end.

Definition completeTask (now : Z) (event : CompletionEvent) : M bool :=
  λ w, let r := JobStateManager.completeTask now event (jobs w) in
       (Ok r.2, set_jobs (λ _, r.1) w).

(** The handler [startEventConsumer] gives to [consumeEvents]. When
    [completeTask] answers [true] only counters are touched; every
    exception is caught and logged inside the handler. *)
Definition onCompletionEvent (now : Z) (event : CompletionEvent) : M unit :=
  try_catch
    (if bool_decide (ev_status event = st_in_progress) then ret tt
     else
       isJobComplete ← completeTask now event;
       if isJobComplete : bool then ret tt
       else if bool_decide (ev_status event = st_success)
       then TaskRouter.handleTaskCompletion now (job_id event) (task_type event)
       else ret tt)
    (λ _, ret tt).

Definition startEventConsumer (messages : list (Z * SQSMessaging.Message))
  : M unit :=
  SQSMessaging.consumeEvents onCompletionEvent messages.

(** One tick of [startPeriodicCleanup]. *)
Definition periodicCleanup (now : Z) : M unit :=
  λ w, (Ok tt, set_jobs (JobStateManager.cleanup now JobStateManager.defaultMaxAge) w).

(** Reading a field of the job spec, [job_spec.product] and the like; of
    an object parsed from JSON the last entry of a name counts. Values
    that are not strings are outside the model and read as absent. *)
Definition json_field (name : string) (v : Json) : option string :=
  match v with
  | JObject fields =>
      match last (filter (λ kv, kv.1 = name) fields) with
      | Some (_, JString s) => Some s
      | _ => None
      end
  | _ => None
  end.

Definition specOfRequest (job_spec : SQSMessaging.RequestSpec) : JobSpec :=
  match job_spec with
  | SQSMessaging.FromBucket v =>
      mkJobSpec (json_field "product" v) (json_field "audience" v)
                (json_field "tone" v) (json_field "job_id" v)
  | SQSMessaging.Inline b =>
      mkJobSpec (SQSMessaging.rq_product b) (SQSMessaging.rq_audience b)
                (SQSMessaging.rq_tone b) (SQSMessaging.rq_job_id b)
  end.

(** The handler [startJobRequestConsumer] gives to [consumeJobRequests];
    the promise of [executeJob] is not awaited and its rejection is
    caught, as is every other exception. *)
Definition onJobRequest (now : Z) (job_id : string)
           (job_spec : SQSMessaging.RequestSpec) : M unit :=
  try_catch
    (createJob now job_id;;
     startJob job_id;;
     try_catch (TaskRouter.executeJob now job_id (specOfRequest job_spec))
               (λ _, ret tt))
    (λ _, ret tt).

Definition startJobRequestConsumer
           (messages : list (Z * SQSMessaging.RequestMessage)) : M unit :=
  SQSMessaging.consumeJobRequests onJobRequest messages.

End TaskRouterApp.

(** ** api.ts *)

Inductive ResponseBody :=
| JobCreated (job_id : string)        (* { job_id, status: 'queued' } *)
| ErrorBody (error : string).

Record Response := mkResponse {
  statusCode : Z;
  headers : list (string * string);
  resBody : ResponseBody
}.

(** Truthiness of an optional string field: present and not empty. *)
Definition truthy (v : option string) : bool :=
  match v with Some s => negb (String.eqb s "") | None => false end.

Module APIServer.

(** [POST /api/router/jobs]; [uuid] is what [uuidv4()] would return. The
    promise of [executeJob] is not awaited and its rejection is caught. *)
Definition postJobs (now : Z) (uuid : string) (jobSpec : JobSpec)
  : M Response :=
  try_catch
    (if negb (truthy (product jobSpec)) || negb (truthy (audience jobSpec))
     then ret (mkResponse 400 [] (ErrorBody "Missing required fields"))
     else
       let jobId := if truthy (spec_job_id jobSpec)
                    then default uuid (spec_job_id jobSpec) else uuid in
       TaskRouterApp.createJob now jobId;;
       TaskRouterApp.startJob jobId;;
       try_catch (TaskRouter.executeJob now jobId jobSpec) (λ _, ret tt);;
       ret (mkResponse 201 [] (JobCreated jobId)))
    (λ _, ret (mkResponse 500 [] (ErrorBody "Failed to create job"))).

(** [Math.round] of the quotient [num / den] of integers, [den > 0]:
    the nearest integer, halves upwards. *)
Definition Math_round (num den : Z) : Z := (2 * num + den) / (2 * den).

(** [calculateJobProgress]; [completedTasks] is always an array, so the
    guard for a missing one never fires. *)
Definition calculateJobProgress (job : JobStatus) : Z :=
  let totalTasks := 3 in
  Math_round (Z.of_nat (length (completedTasks job)) * 100) totalTasks.

Record Task := mkTask {
  task_id : string;
  task_job_id : string;
  task_status : Status;
  created_at : Z;
  agent_type : string;
  progress : Z
}.

Definition toTask (job : JobStatus) : Task :=
  mkTask (jobId job) (jobId job) (status job) (startedAt job) "external"
         (calculateJobProgress job).

(** [GET /api/router/tasks] *)
Definition getTasks (w : World) : list Task :=
  toTask <$> JobStateManager.getAllJobs (jobs w).

(** [GET /api/router/jobs/:jobId]: the status code and the record. *)
Definition getJobRoute (id : string) (w : World) : Z * option JobStatus :=
  match JobStateManager.getJob id (jobs w) with
  | None => (404, None)
  | Some job => (200, Some job)
  end.

(** [GET /api/router/jobs] and [GET /health] answer with [getStats()]. *)
Definition getJobsRoute (w : World) : Z * JobStateManager.Stats :=
  (200, JobStateManager.getStats (jobs w)).

End APIServer.

(** ** agent-web: the route [POST /api/jobs] in front of the router *)

Record Request := mkRequest {
  x_forwarded_for : option string;
  x_real_ip : option string;
  json : option JobSpec          (* [None]: [request.json()] rejects *)
}.

Record WebWorld := mkWebWorld {
  rateLimitStore : gmap string Z;
  router : World
}.

Module WebJobs.

Definition RATE_LIMIT_WINDOW : Z := 60 * 1000.

(** [s.split(',')[0]] *)
Fixpoint split_comma_0 (s : string) : string :=
  match s with
  | EmptyString => EmptyString
  | String c rest =>
      if Ascii.eqb c ","%char then EmptyString else String c (split_comma_0 rest)
  end.

(** The white space [String.prototype.trim] strips. A header value is a
    string of characters below 256, one for each byte received, and of
    the white space and line terminators of the language only seven are
    below 256: tab, line feed, vertical tab, form feed, carriage return,
    space and the no-break space U+00A0. *)
Definition isWhiteSpace (c : ascii) : bool :=
  Ascii.is_space c || Ascii.eqb c "160"%char.

Fixpoint trimStart (s : string) : string :=
  match s with
  | EmptyString => EmptyString
  | String c rest => if isWhiteSpace c then trimStart rest else s
  end.

(** [String.prototype.trim] *)
Definition trim (s : string) : string :=
  String.rev (trimStart (String.rev (trimStart s))).

Definition getClientIP (request : Request) : string :=
  if truthy (x_forwarded_for request)
  then trim (split_comma_0 (default "" (x_forwarded_for request)))
  else if truthy (x_real_ip request)
  then default "" (x_real_ip request)
  else "localhost".

(** [checkRateLimit]: the answer and the store it leaves. A stored
    reading of [0] is falsy and counts as no reading. *)
Definition checkRateLimit (now : Z) (ip : string) (store : gmap string Z)
  : bool * gmap string Z :=
  match store !! ip with
  | None => (true, <[ip := now]> store)
  | Some lastRequest =>
      if lastRequest =? 0 then (true, <[ip := now]> store)
      else
        let timeSinceLastRequest := now - lastRequest in
        if RATE_LIMIT_WINDOW <=? timeSinceLastRequest
        then (true, <[ip := now]> store)
        else (false, store)
  end.

Definition cleanupRateLimitStore (now : Z) (store : gmap string Z)
  : gmap string Z :=
  filter (λ kv, ¬ (RATE_LIMIT_WINDOW < now - kv.2)) store.

Definition json_of_spec (jobSpec : JobSpec) : Json :=
  JObject [("product", json_of_field (product jobSpec));
           ("audience", json_of_field (audience jobSpec));
           ("tone", json_of_field (tone jobSpec))].

(** [storeJobSpecInS3], into the bucket the router reads. *)
Definition storeJobSpecInS3 (jobId : string) (jobSpec : JobSpec) : M string :=
  S3Storage.store (jobId ++ "/research.json") (json_of_spec jobSpec).

(** [createJobInTaskRouter]: the [fetch] is the router's own handler run
    on the spec extended with the minted id; a response outside 2xx is
    thrown. *)
Definition createJobInTaskRouter (routerNow : Z) (routerUuid jobId : string)
           (jobSpec : JobSpec) : M unit :=
  response ← APIServer.postJobs routerNow routerUuid
               (mkJobSpec (product jobSpec) (audience jobSpec) (tone jobSpec)
                          (Some jobId));
  if (200 <=? statusCode response) && (statusCode response <=? 299)
  then ret tt
  else throw (RouterResponded (statusCode response)).

(** What one call of the route reads from its surroundings. *)
Record Env := mkEnv {
  now : Z;                 (* [Date.now()] in the web process *)
  random_hit : bool;       (* [Math.random() < 0.01] *)
  uuid : string;           (* [uuidv4()] in the web process *)
  bucket_configured : bool;(* [S3_BUCKET_NAME] is not empty *)
  routerNow : Z;           (* the router's clock when the fetch arrives *)
  routerUuid : string      (* [uuidv4()] in the router *)
}.

Definition rateLimited : Response :=
  mkResponse 429
    [("Retry-After", "60"); ("X-RateLimit-Limit", "1");
     ("X-RateLimit-Window", "60")]
    (ErrorBody "Rate limit exceeded").

(** [POST]. [TASK_ROUTER_API_URL] always has a value (it defaults to
    localhost), so the branch that throws for a missing URL is dead. *)
Definition POST (env : Env) (request : Request) (ww : WebWorld)
  : Response * WebWorld :=
  let clientIP := getClientIP request in
  let checked := checkRateLimit (now env) clientIP (rateLimitStore ww) in
  if negb checked.1 then (rateLimited, mkWebWorld checked.2 (router ww))
  else
    let store := if random_hit env
                 then cleanupRateLimitStore (now env) checked.2
                 else checked.2 in
    match json request with
    | None =>
        (mkResponse 400 [] (ErrorBody "Invalid request"),
         mkWebWorld store (router ww))
    | Some jobSpec =>
        if negb (truthy (product jobSpec)) || negb (truthy (audience jobSpec))
        then (mkResponse 400 []
                (ErrorBody "Missing required fields: product and audience are required"),
              mkWebWorld store (router ww))
        else
          let jobId := uuid env in
          let integration : M unit :=
            (if bucket_configured env
             then storeJobSpecInS3 jobId jobSpec;; ret tt
             else ret tt);;
            createJobInTaskRouter (routerNow env) (routerUuid env) jobId jobSpec in
          match integration (router ww) with
          | (Ok _, w') =>
              (mkResponse 201 [] (JobCreated jobId), mkWebWorld store w')
          | (Throw _, w') =>
              (mkResponse 500 []
                 (ErrorBody "Failed to queue job for external processing"),
               mkWebWorld store w')
          end
    end.

(** A run of the route over the requests that arrive, in order. *)
Fixpoint serve (reqs : list (Env * Request)) (ww : WebWorld)
  : list Response * WebWorld :=
  match reqs with
  | [] => ([], ww)
  | (env, request) :: rest =>
      let r := POST env request ww in
      let rs := serve rest r.2 in
      (r.1 :: rs.1, rs.2)
  end.

End WebJobs.

(** * Notions the properties are stated with *)

(** The id the route admits under: [jobSpec.job_id || uuidv4()]. *)
Definition admitted_id (uuid : string) (jobSpec : JobSpec) : string :=
  if truthy (spec_job_id jobSpec) then default uuid (spec_job_id jobSpec)
  else uuid.

(** Between two deliveries the stage workers write artifacts to the
    bucket; nothing else of the router's world is theirs to change. *)
Definition agentStores (uploads : list (string * Json)) (w : World) : World :=
  mkWorld (jobs w) (foldr (λ kv bucket, <[kv.1 := kv.2]> bucket) (s3 w) uploads)
          (sent w) (deleted w).

(** One round: the agents write, then the router handles one event. *)
Definition round (r : list (string * Json) * Z * CompletionEvent) (w : World)
  : World :=
  (TaskRouterApp.onCompletionEvent r.1.2 r.2 (agentStores r.1.1 w)).2.

(** Rounds one after the other, the first of the list first. *)
Definition rounds (rs : list (list (string * Json) * Z * CompletionEvent))
           (w : World) : World :=
  foldl (λ w r, round r w) w rs.

(** The POSTs to [/api/router/jobs] answered one after the other, each
    with the clock of the router when it arrives, the uuid minted for it
    and its body. *)
Fixpoint postAll (posts : list (Z * string * JobSpec)) (w : World)
  : list (Result Response) * World :=
  match posts with
  | [] => ([], w)
  | (now, uuid, jobSpec) :: rest =>
      let r := APIServer.postJobs now uuid jobSpec w in
      let rs := postAll rest r.2 in
      (r.1 :: rs.1, rs.2)
  end.

(** A sent message is the announcement [event_type: 'job_completed']. *)
Definition is_job_completed (m : SentMessage) : bool :=
  match Body m with DoneBody _ _ => true | TaskBody _ _ _ _ => false end.

(** The [job_completed] announcements among the messages sent so far. *)
Definition job_completed_sent (w : World) : list SentMessage :=
  filter (λ m, is_job_completed m = true) (sent w).

(** What [handleTaskCompletion] does for a finished task that has a
    successor: the stage dispatched next, its queue, and the suffix of the
    artifact read as its input. *)
Definition successor (task : string) : option (string * Queue * string) :=
  if String.eqb task "research"
  then Some ("product_manager", productManager, "/research-result.json")
  else if String.eqb task "product_manager"
  then Some ("drawer", drawer, "/product-manager-result.json")
  else if String.eqb task "drawer"
  then Some ("designer", designer, "/drawer-result.json")
  else if String.eqb task "designer"
  then Some ("coder", coder, "/designer-result.json")
  else None.

(** The task message [sendTaskMessage] puts on queue [q] for stage [next]. *)
Definition taskMessage (j next : string) (q : Queue) (now : Z) : SentMessage :=
  mkSent q (TaskBody j next (j ++ "/" ++ next ++ ".json") now).

(** A received message whose body is the JSON text of event [e]. *)
Definition carries (e : CompletionEvent) (m : Z * SQSMessaging.Message) : Prop :=
  SQSMessaging.MsgBody m.2 = SQSMessaging.EventJson e.

(** A property of the world that a computation keeps, whether it returns
    or throws. *)
Definition preserves {A} (P : World → Prop) (m : M A) : Prop :=
  ∀ w, P w → P (m w).2.

(** What can happen to the router, one step at a time. *)
Inductive Step :=
| Submit (now : Z) (uuid : string) (jobSpec : JobSpec)
| Requests (messages : list (Z * SQSMessaging.RequestMessage))
| Events (messages : list (Z * SQSMessaging.Message))
| AgentsStore (uploads : list (string * Json))
| Reap (now : Z).

Definition step (st : Step) (w : World) : World :=
  match st with
  | Submit now uuid jobSpec => (APIServer.postJobs now uuid jobSpec w).2
  | Requests messages => (TaskRouterApp.startJobRequestConsumer messages w).2
  | Events messages => (TaskRouterApp.startEventConsumer messages w).2
  | AgentsStore uploads => agentStores uploads w
  | Reap now => (TaskRouterApp.periodicCleanup now w).2
  end.

Definition run (steps : list Step) (w : World) : World :=
  foldl (λ w st, step st w) w steps.

(** The router as it starts: no job, an empty bucket, nothing sent. *)
Definition initial : World := mkWorld ∅ ∅ [] [].

(** What holds of every record of the index, under its key. *)
Definition record_ok (key : string) (job : JobStatus) : Prop :=
  jobId job = key
  ∧ status job ≠ queued
  ∧ NoDup (completedTasks job)
  ∧ (status job = completed → JobStateManager.allTasksComplete job = true)
  ∧ (status job = completed ∨ status job = failed ↔ is_Some (completedAt job)).

Definition index_ok (w : World) : Prop :=
  ∀ key job, jobs w !! key = Some job → record_ok key job.

(** A sent task message names a payload that is in the bucket, under the
    key of its job and stage. *)
Definition payload_stored (bucket : gmap string Json) (m : SentMessage) : Prop :=
  match Body m with
  | TaskBody j t k _ => k = j ++ "/" ++ t ++ ".json" ∧ is_Some (bucket !! k)
  | DoneBody _ _ => True
  end.

Definition sent_ok (w : World) : Prop :=
  Forall (payload_stored (s3 w)) (sent w).

(** The receipt handles of the messages of a batch that parse. *)
Definition parseable_handles (messages : list (Z * SQSMessaging.Message))
  : list string :=
  omap (λ m, match SQSMessaging.MsgBody m.2 with
             | SQSMessaging.EventJson _ => Some (SQSMessaging.ReceiptHandle m.2)
             | SQSMessaging.Malformed _ => None
             end) messages.

(** The events of a batch, in order. *)
Definition events_of (messages : list (Z * SQSMessaging.Message))
  : list CompletionEvent :=
  omap (λ m, match SQSMessaging.MsgBody m.2 with
             | SQSMessaging.EventJson e => Some e
             | SQSMessaging.Malformed _ => None
             end) messages.

(** The canonical stages before a stage. *)
Definition predecessors (task : string) : list string :=
  if String.eqb task "research" then []
  else if String.eqb task "product_manager" then ["research"]
  else if String.eqb task "drawer" then ["research"; "product_manager"]
  else if String.eqb task "designer" then ["research"; "product_manager"; "drawer"]
  else if String.eqb task "coder"
  then ["research"; "product_manager"; "drawer"; "designer"]
  else [].

(** The two formats [consumeJobRequests] accepts. *)
Definition by_reference (b : SQSMessaging.JobRequestBody) : bool :=
  SQSMessaging.present (SQSMessaging.rq_job_id b)
  && bool_decide (SQSMessaging.rq_task_type b = Some "start_job")
  && SQSMessaging.present (SQSMessaging.rq_payload_key b).

Definition inline (b : SQSMessaging.JobRequestBody) : bool :=
  SQSMessaging.present (SQSMessaging.rq_job_id b)
  && (SQSMessaging.present (SQSMessaging.rq_product b)
      || SQSMessaging.present (SQSMessaging.rq_audience b)).

(** * Scenarios *)

(** Job J1 completed at time 10. *)
Definition J1_done_world : World :=
  mkWorld (<["J1" := mkJobStatus "J1" completed JobStateManager.requiredTasks 0
                       (Some 10) None]> ∅) ∅ [] [].

(** The submission of job J2. *)
Definition J2_spec : JobSpec :=
  mkJobSpec (Some "Acme Widget") (Some "Developers") (Some "technical") (Some "J2").

(** Job J2 was admitted at time 10 and finished research at time 20. *)
Definition J2_world : World :=
  (TaskRouterApp.onCompletionEvent 20 (mkEvent "J2" "research" st_success None)
     (APIServer.postJobs 10 "5d0c" J2_spec (mkWorld ∅ ∅ [] [])).2).2.

(** Job J3 is admitted at time 10 and its research result is stored. *)
Definition J3_world : World :=
  agentStores [("J3/research-result.json", JObject [])]
    (APIServer.postJobs 10 "5d0c"
       (mkJobSpec (Some "Acme Widget") (Some "Developers") None (Some "J3"))
       (mkWorld ∅ ∅ [] [])).2.

(** A message reporting the success of J3's research. *)
Definition research_done (handle : string) : SQSMessaging.Message :=
  SQSMessaging.mkMessage handle handle
    (SQSMessaging.EventJson (mkEvent "J3" "research" st_success None)).

(** Job J4 has finished research; the designer's result is in the bucket. *)
Definition J4_world : World :=
  mkWorld (<["J4" := mkJobStatus "J4" in_progress ["research"] 0 None None]> ∅)
          (<["J4/designer-result.json" := JObject []]> ∅) [] [].

(** Job J5 failed in the drawer stage at time 10. *)
Definition J5_world : World :=
  mkWorld (<["J5" := mkJobStatus "J5" failed ["research"; "product_manager"] 0
                       (Some 10) (Some "timeout")]> ∅) ∅ [] [].

(** Job J7 is waiting for research; no research result is in the bucket. *)
Definition J7_world : World :=
  mkWorld (<["J7" := mkJobStatus "J7" in_progress [] 0 None None]> ∅) ∅ [] [].

(** * Properties *)

(** Unfolds the operations of [M] so that a computation can be followed
    case by case. *)
Ltac unfold_M :=
  unfold mbind, M_bind, mret, M_ret, bind, ret, throw, try_catch in *.

(** ** Facts about the job index *)

Section JobStateFacts.
Import JobStateManager.

Lemma includes_true l x : includes l x = true ↔ x ∈ l.
Proof. unfold includes. apply bool_decide_eq_true. Qed.

Lemma includes_false l x : includes l x = false ↔ x ∉ l.
Proof. unfold includes. apply bool_decide_eq_false. Qed.

Lemma addTask_old t job :
  t ∈ completedTasks job → addTask t job = job.
Proof. intros Hin. unfold addTask. by rewrite (proj2 (includes_true _ _) Hin). Qed.

Lemma addTask_new t job :
  t ∉ completedTasks job → addTask t job = push t job.
Proof. intros Hin. unfold addTask. by rewrite (proj2 (includes_false _ _) Hin). Qed.

Lemma addTask_prefix t job :
  completedTasks job `prefix_of` completedTasks (addTask t job).
Proof.
  destruct (decide (t ∈ completedTasks job)) as [Hin|Hin].
  - by rewrite addTask_old.
  - rewrite addTask_new by done. simpl. by apply prefix_app_r.
Qed.

Lemma addTask_NoDup t job :
  NoDup (completedTasks job) → NoDup (completedTasks (addTask t job)).
Proof.
  intros Hnd. destruct (decide (t ∈ completedTasks job)) as [Hin|Hin].
  - by rewrite addTask_old.
  - rewrite addTask_new by done. simpl. apply NoDup_app. split_and!; [done| |apply NoDup_singleton].
    intros x Hx Hx'. apply list_elem_of_singleton in Hx'. by subst.
Qed.

(** Whatever the event, a record stays in the index and its list of
    completed tasks is only extended at the end. *)
Lemma completeTask_lookup now e (m : gmap string JobStatus) id job :
  m !! id = Some job →
  ∃ job', (completeTask now e m).1 !! id = Some job'
          ∧ completedTasks job `prefix_of` completedTasks job'
          ∧ (NoDup (completedTasks job) → NoDup (completedTasks job')).
Proof.
  intros Hid. unfold completeTask.
  destruct (m !! job_id e) as [cur|] eqn:Hcur; [|by eauto].
  destruct (decide (job_id e = id)) as [Heq|Hne].
  - rewrite Heq in *. assert (cur = job) as -> by congruence.
    destruct (ev_status e); simpl.
    + destruct (allTasksComplete _); simpl; rewrite lookup_insert_eq;
        eexists; (split; [done|]); simpl;
        split; auto using addTask_prefix, addTask_NoDup.
    + rewrite lookup_insert_eq. eexists; split; [done|]. by simpl.
    + rewrite lookup_insert_eq. eexists; split; [done|]. by simpl.
    + eauto.
  - destruct (ev_status e); simpl;
      try destruct (allTasksComplete _); simpl;
      rewrite ?lookup_insert_ne by done; eauto.
Qed.

End JobStateFacts.

(** ** Facts about the event consumer *)

Section ConsumerFacts.

Lemma sendTaskMessage_frame now j t p w :
  jobs (SQSMessaging.sendTaskMessage now j t p w).2 = jobs w
  ∧ deleted (SQSMessaging.sendTaskMessage now j t p w).2 = deleted w.
Proof.
  unfold SQSMessaging.sendTaskMessage, S3Storage.storePayload, S3Storage.store,
    SQSMessaging.getQueueUrl, SQSMessaging.sendMessage.
  unfold_M. simpl. repeat case_match; simplify_eq/=; done.
Qed.

Lemma handleTaskCompletion_frame now j t w :
  jobs (TaskRouter.handleTaskCompletion now j t w).2 = jobs w
  ∧ deleted (TaskRouter.handleTaskCompletion now j t w).2 = deleted w.
Proof.
  unfold TaskRouter.handleTaskCompletion.
  repeat case_match; try done;
    unfold TaskRouter.executeProductManagerTask, TaskRouter.executeDrawerTask,
      TaskRouter.executeDesignerTask, TaskRouter.executeCodeTask,
      TaskRouter.completeJob, SQSMessaging.publishDone, SQSMessaging.sendMessage,
      S3Storage.get;
    unfold mbind, M_bind, bind; simpl;
    try (destruct (s3 w !! _); lazy beta iota; [apply sendTaskMessage_frame|done]);
    done.
Qed.

(** The handler never throws. *)
Lemma onCompletionEvent_returns now e w :
  (TaskRouterApp.onCompletionEvent now e w).1 = Ok tt.
Proof.
  unfold TaskRouterApp.onCompletionEvent, try_catch.
  destruct (_ w) as [[[]|err] w'] eqn:Hrun; done.
Qed.

(** On the job index the handler is [completeTask]. *)
Lemma onCompletionEvent_jobs now e w :
  jobs (TaskRouterApp.onCompletionEvent now e w).2
  = (JobStateManager.completeTask now e (jobs w)).1.
Proof.
  unfold TaskRouterApp.onCompletionEvent, TaskRouterApp.completeTask.
  unfold_M. case_bool_decide as Hst; simpl.
  - unfold JobStateManager.completeTask. rewrite Hst. by case_match.
  - destruct (JobStateManager.completeTask now e (jobs w)) as [m b] eqn:Hc; simpl.
    destruct b; simpl; [done|].
    case_bool_decide; simpl; [|done].
    pose proof (handleTaskCompletion_frame now (job_id e) (task_type e)
                  (set_jobs (λ _, m) w)) as [Hj _].
    destruct (TaskRouter.handleTaskCompletion _ _ _ _) as [[[]|err] w'];
      simpl in *; done.
Qed.

(** Dispatching neither reads nor writes the job index. *)
Lemma handleTaskCompletion_set_jobs now j t f w :
  TaskRouter.handleTaskCompletion now j t (set_jobs f w)
  = ((TaskRouter.handleTaskCompletion now j t w).1,
     set_jobs f (TaskRouter.handleTaskCompletion now j t w).2).
Proof.
  unfold TaskRouter.handleTaskCompletion.
  repeat case_match; try done;
    unfold TaskRouter.executeProductManagerTask, TaskRouter.executeDrawerTask,
      TaskRouter.executeDesignerTask, TaskRouter.executeCodeTask,
      TaskRouter.completeJob, SQSMessaging.publishDone,
      SQSMessaging.sendTaskMessage, S3Storage.storePayload, S3Storage.store,
      SQSMessaging.getQueueUrl, SQSMessaging.sendMessage, S3Storage.get;
    unfold_M; simpl; try done;
    destruct (s3 w !! _); done.
Qed.

(** A success event that leaves tasks open: the record is updated and
    the completed task's successor is dispatched; an exception of the
    dispatch is swallowed. *)
Lemma onCompletionEvent_success_open now e w job :
  jobs w !! job_id e = Some job →
  ev_status e = st_success →
  JobStateManager.allTasksComplete
    (JobStateManager.addTask (task_type e) job) = false →
  (TaskRouterApp.onCompletionEvent now e w).2
  = set_jobs (λ _, <[job_id e := JobStateManager.addTask (task_type e) job]> (jobs w))
      (TaskRouter.handleTaskCompletion now (job_id e) (task_type e) w).2.
Proof.
  intros Hjob Hst Hopen.
  unfold TaskRouterApp.onCompletionEvent, TaskRouterApp.completeTask,
    JobStateManager.completeTask.
  unfold_M. rewrite Hst. simpl. rewrite Hjob, Hopen. simpl.
  rewrite handleTaskCompletion_set_jobs.
  destruct (TaskRouter.handleTaskCompletion _ _ _ w) as [[[]|err] w']; done.
Qed.

(** A success event that completes the job: only the record changes. *)
Lemma onCompletionEvent_success_complete now e w job :
  jobs w !! job_id e = Some job →
  ev_status e = st_success →
  JobStateManager.allTasksComplete
    (JobStateManager.addTask (task_type e) job) = true →
  (TaskRouterApp.onCompletionEvent now e w).2
  = set_jobs (λ _, <[job_id e :=
                      JobStateManager.set_completedAt now
                        (JobStateManager.set_status completed
                           (JobStateManager.addTask (task_type e) job))]> (jobs w)) w.
Proof.
  intros Hjob Hst Hall.
  unfold TaskRouterApp.onCompletionEvent, TaskRouterApp.completeTask,
    JobStateManager.completeTask.
  unfold_M. rewrite Hst. simpl. rewrite Hjob, Hall. done.
Qed.

Lemma consumeMessage_jobs now msg w :
  jobs (SQSMessaging.consumeMessage (TaskRouterApp.onCompletionEvent now) msg w).2
  = match SQSMessaging.MsgBody msg with
    | SQSMessaging.Malformed _ => jobs w
    | SQSMessaging.EventJson e => (JobStateManager.completeTask now e (jobs w)).1
    end.
Proof.
  unfold SQSMessaging.consumeMessage, SQSMessaging.JSON_parse,
    SQSMessaging.deleteMessage.
  unfold_M. destruct (SQSMessaging.MsgBody msg) as [raw|e]; simpl; [done|].
  pose proof (onCompletionEvent_returns now e w) as Hok.
  pose proof (onCompletionEvent_jobs now e w) as Hj.
  destruct (TaskRouterApp.onCompletionEvent now e w) as [r w']; simpl in *.
  by subst r.
Qed.

(** The loop body catches everything. *)
Lemma consumeMessage_returns handler msg w :
  (SQSMessaging.consumeMessage handler msg w).1 = Ok tt.
Proof.
  unfold SQSMessaging.consumeMessage, try_catch.
  match goal with |- context [let (_, _) := ?m w in _] =>
    destruct (m w) as [[[]|err] w'] end; done.
Qed.

Lemma consumeMessage_handled handler msg w e w' :
  SQSMessaging.MsgBody msg = SQSMessaging.EventJson e →
  handler e w = (Ok tt, w') →
  (SQSMessaging.consumeMessage handler msg w).2
  = mkWorld (jobs w') (s3 w') (sent w')
            (deleted w' ++ [SQSMessaging.ReceiptHandle msg]).
Proof.
  intros Hbody Hh.
  unfold SQSMessaging.consumeMessage, SQSMessaging.JSON_parse,
    SQSMessaging.deleteMessage.
  unfold_M. rewrite Hbody. simpl. by rewrite Hh.
Qed.

Lemma consumeEvents_cons handler now msg rest w :
  SQSMessaging.consumeEvents handler ((now, msg) :: rest) w
  = SQSMessaging.consumeEvents handler rest
      (SQSMessaging.consumeMessage (handler now) msg w).2.
Proof.
  simpl. unfold mbind, M_bind, bind.
  pose proof (consumeMessage_returns (handler now) msg w) as Hok.
  destruct (SQSMessaging.consumeMessage (handler now) msg w) as [r w'].
  simpl in *. by subst r.
Qed.

(** With the upstream artifact in the bucket the dispatch goes through:
    one payload is stored, one task message is sent, and the upstream
    artifact is still there. *)
Lemma handleTaskCompletion_dispatch now j t w next q suffix d :
  successor t = Some (next, q, suffix) →
  s3 w !! (j ++ suffix) = Some d →
  let w' := (TaskRouter.handleTaskCompletion now j t w).2 in
  jobs w' = jobs w
  ∧ sent w' = (sent w ++ [taskMessage j next q now])%list
  ∧ s3 w' !! (j ++ suffix) = Some d.
Proof.
  unfold successor, TaskRouter.handleTaskCompletion.
  intros Hsucc Hart.
  repeat (destruct (String.eqb t _);
          [simplify_eq;
           unfold TaskRouter.executeProductManagerTask, TaskRouter.executeDrawerTask,
             TaskRouter.executeDesignerTask, TaskRouter.executeCodeTask, S3Storage.get;
           unfold mbind, M_bind, bind; rewrite Hart; lazy beta iota;
           unfold SQSMessaging.sendTaskMessage, S3Storage.storePayload,
             S3Storage.store, SQSMessaging.sendMessage, taskMessage;
           unfold_M; simpl; split_and!; [done|done|];
           rewrite lookup_insert_ne; [done|];
           intros Heq; apply (inj (String.app j)) in Heq; discriminate Heq
          |]).
  discriminate.
Qed.

(** Without the upstream artifact the dispatch throws at the read, before
    anything is stored or sent. *)
Lemma handleTaskCompletion_missing now j t w next q suffix :
  successor t = Some (next, q, suffix) →
  s3 w !! (j ++ suffix) = None →
  TaskRouter.handleTaskCompletion now j t w = (Throw (NoSuchKey (j ++ suffix)), w).
Proof.
  unfold successor, TaskRouter.handleTaskCompletion.
  intros Hsucc Hmiss.
  repeat (destruct (String.eqb t _);
          [simplify_eq;
           unfold TaskRouter.executeProductManagerTask, TaskRouter.executeDrawerTask,
             TaskRouter.executeDesignerTask, TaskRouter.executeCodeTask,
             S3Storage.get;
           unfold mbind, M_bind, bind; by rewrite Hmiss|]).
  discriminate.
Qed.

End ConsumerFacts.

(** ** C1: order of the completed tasks *)

(** C1, the claim refuted: a success event for [designer] arriving right
    after [research] is not ignored. The stage is appended, the list is no
    longer a prefix of the canonical order, and the coder is dispatched. *)
Lemma C1_out_of_order_event_is_recorded :
  let w' := (TaskRouterApp.onCompletionEvent 5
               (mkEvent "J4" "designer" st_success None) J4_world).2 in
  (completedTasks <$> jobs w' !! "J4") = Some ["research"; "designer"]
  ∧ ¬ (["research"; "designer"] `prefix_of` JobStateManager.requiredTasks)
  ∧ sent w' = [mkSent coder (TaskBody "J4" "coder" "J4/coder.json" 5)].
Proof.
  split_and!.
  - vm_compute. reflexivity.
  - intros [k Hk]. discriminate Hk.
  - vm_compute. reflexivity.
Qed.

(** C1 (amended): over every sequence of delivered events the list of
    completed tasks of a job only grows at its end and stays free of
    duplicates. A success event for a task that is not yet in the list is
    appended whatever its place in the canonical order, and as long as
    tasks remain open afterwards the stage after the reported one is
    dispatched: with the result of the reported stage in the bucket one
    task message for that stage is put on its queue, and without it
    nothing is sent. *)
Theorem C1_completed_tasks_grow_by_appending
        (messages : list (Z * SQSMessaging.Message)) (w : World)
        (id : string) (job : JobStatus) :
  jobs w !! id = Some job →
  NoDup (completedTasks job) →
  (∃ job', jobs (TaskRouterApp.startEventConsumer messages w).2 !! id = Some job'
           ∧ completedTasks job `prefix_of` completedTasks job'
           ∧ NoDup (completedTasks job'))
  ∧ (∀ now e,
       job_id e = id → ev_status e = st_success →
       task_type e ∉ completedTasks job →
       let w' := (TaskRouterApp.onCompletionEvent now e w).2 in
       (completedTasks <$> jobs w' !! id)
       = Some (completedTasks job ++ [task_type e])%list
       ∧ (JobStateManager.allTasksComplete
            (JobStateManager.push (task_type e) job) = false →
          ∀ next q suffix,
            successor (task_type e) = Some (next, q, suffix) →
            (is_Some (s3 w !! (id ++ suffix)) →
             sent w' = (sent w ++ [taskMessage id next q now])%list)
            ∧ (s3 w !! (id ++ suffix) = None → sent w' = sent w))).
Proof.
  intros Hjob Hnd. split.
  - unfold TaskRouterApp.startEventConsumer.
    revert w job Hjob Hnd.
    induction messages as [|[now msg] rest IH]; intros w job Hjob Hnd.
    + exists job. by split_and!.
    + rewrite consumeEvents_cons.
      set (w1 := (SQSMessaging.consumeMessage _ msg w).2).
      assert (∃ job1, jobs w1 !! id = Some job1
                ∧ completedTasks job `prefix_of` completedTasks job1
                ∧ NoDup (completedTasks job1)) as (job1 & Hjob1 & Hpre & Hnd1).
      { subst w1. rewrite consumeMessage_jobs.
        destruct (SQSMessaging.MsgBody msg) as [raw|e].
        - exists job. by split_and!.
        - destruct (completeTask_lookup now e (jobs w) id job Hjob)
            as (job1 & ? & ? & Hk).
          exists job1. split_and!; auto. }
      destruct (IH w1 job1 Hjob1 Hnd1) as (job' & Hjob' & Hpre' & Hnd').
      exists job'. split_and!; [done| |done]. by etrans.
  - intros now e Hid Hst Hnew. subst id.
    pose proof (addTask_new _ _ Hnew) as Hadd.
    destruct (JobStateManager.allTasksComplete
                (JobStateManager.push (task_type e) job)) eqn:Hall.
    + rewrite (onCompletionEvent_success_complete now e w job), Hadd by congruence.
      simpl. rewrite lookup_insert_eq. by split.
    + rewrite (onCompletionEvent_success_open now e w job), Hadd by congruence.
      simpl. rewrite lookup_insert_eq. split; [done|].
      intros _ next q suffix Hsucc. split.
      * intros [d Hart].
        by destruct (handleTaskCompletion_dispatch now (job_id e) (task_type e) w
                       next q suffix d Hsucc Hart) as (_ & Hs & _).
      * intros Hmiss.
        by rewrite (handleTaskCompletion_missing now (job_id e) (task_type e) w
                      next q suffix Hsucc Hmiss).
Qed.

Lemma C1_completed_tasks_grow_by_appending_witness :
  let job := mkJobStatus "J4" in_progress ["research"] 0 None None in
  let e := mkEvent "J4" "designer" st_success None in
  jobs J4_world !! "J4" = Some job
  ∧ NoDup (completedTasks job)
  ∧ (task_type e ∉ completedTasks job)
  ∧ is_Some (s3 J4_world !! ("J4" ++ "/designer-result.json"))
  ∧ sent (TaskRouterApp.onCompletionEvent 5 e J4_world).2
    = [taskMessage "J4" "coder" coder 5].
Proof.
  assert (jobs J4_world !! "J4"
          = Some (mkJobStatus "J4" in_progress ["research"] 0 None None)) as Hjob
    by (vm_compute; reflexivity).
  assert (NoDup ["research"]) as Hnd by apply NoDup_singleton.
  assert ("designer" ∉ ["research"]) as Hnew.
  { intros Hin. apply list_elem_of_In in Hin. simpl in Hin.
    destruct Hin as [H|[]]; discriminate H. }
  assert (is_Some (s3 J4_world !! ("J4" ++ "/designer-result.json"))) as Hart
    by (exists (JObject []); vm_compute; reflexivity).
  split; [exact Hjob|]. split; [exact Hnd|]. split; [exact Hnew|].
  split; [exact Hart|].
  exact (proj1 (proj2 (proj2 (C1_completed_tasks_grow_by_appending [] J4_world "J4" _
                                Hjob Hnd)
                         5 (mkEvent "J4" "designer" st_success None)
                         eq_refl eq_refl Hnew)
                  eq_refl "coder" coder "/designer-result.json" eq_refl) Hart).
Defined.

(** ** C2: events for a terminal job *)

(** C2, the claim refuted: a failed job gains a completed stage from a
    later success event, has its error and completion time overwritten by
    a later failure event, and a completed job is turned into a failed one
    by a later error event. *)
Lemma C2_terminal_job_still_changes :
  jobs (TaskRouterApp.onCompletionEvent 20
          (mkEvent "J5" "drawer" st_success None) J5_world).2 !! "J5"
  = Some (mkJobStatus "J5" failed ["research"; "product_manager"; "drawer"] 0
            (Some 10) (Some "timeout"))
  ∧ jobs (TaskRouterApp.onCompletionEvent 20
            (mkEvent "J5" "coder" st_failure (Some "late")) J5_world).2 !! "J5"
    = Some (mkJobStatus "J5" failed ["research"; "product_manager"] 0
              (Some 20) (Some "late"))
  ∧ jobs (TaskRouterApp.onCompletionEvent 20
            (mkEvent "J1" "coder" st_error (Some "late")) J1_done_world).2 !! "J1"
    = Some (mkJobStatus "J1" failed JobStateManager.requiredTasks 0
              (Some 20) (Some "late")).
Proof. split_and!; vm_compute; reflexivity. Qed.

(** C2 (amended): the status of a job does not guard the handling of
    events. For a terminal job and a later event for it: an in_progress
    event changes nothing; a failure or error event sets status failed,
    the error of the event and the time of processing as completion time,
    and leaves the completed tasks; a success event appends its task
    unless it is in the list already, leaves the error, and then, if all
    five stages are in the list, sets status completed and the completion
    time to the time of processing, while otherwise status and completion
    time stay. So a failed job becomes completed when its last stage
    arrives, and a repeated success on a completed job renews its
    completion time. The records of the other jobs stay as they are. *)
Theorem C2_events_after_terminal
        (now : Z) (e : CompletionEvent) (w : World) (job : JobStatus) :
  jobs w !! job_id e = Some job →
  status job = failed ∨ (status job = completed ∧ is_Some (completedAt job)) →
  let jobs' := jobs (TaskRouterApp.onCompletionEvent now e w).2 in
  let tasks' := if decide (task_type e ∈ completedTasks job)
                then completedTasks job
                else (completedTasks job ++ [task_type e])%list in
  (∀ other, other ≠ job_id e → jobs' !! other = jobs w !! other)
  ∧ (ev_status e = st_in_progress → jobs' = jobs w)
  ∧ (ev_status e = st_failure ∨ ev_status e = st_error →
     jobs' !! job_id e
     = Some (mkJobStatus (jobId job) failed (completedTasks job) (startedAt job)
               (Some now) (ev_error e)))
  ∧ (ev_status e = st_success →
     (∀ stage, stage ∈ JobStateManager.requiredTasks → stage ∈ tasks') →
     jobs' !! job_id e
     = Some (mkJobStatus (jobId job) completed tasks' (startedAt job)
               (Some now) (error job)))
  ∧ (ev_status e = st_success →
     ¬ (∀ stage, stage ∈ JobStateManager.requiredTasks → stage ∈ tasks') →
     jobs' !! job_id e
     = Some (mkJobStatus (jobId job) (status job) tasks' (startedAt job)
               (completedAt job) (error job))).
Proof.
  intros Hjob _ jobs' tasks'. subst jobs'. rewrite onCompletionEvent_jobs.
  unfold JobStateManager.completeTask. rewrite Hjob.
  assert (JobStateManager.addTask (task_type e) job
          = mkJobStatus (jobId job) (status job) tasks' (startedAt job)
              (completedAt job) (error job)) as Hadd.
  { subst tasks'. destruct (decide _) as [Hin|Hin].
    - rewrite addTask_old by done. by destruct job.
    - by rewrite addTask_new. }
  assert (JobStateManager.allTasksComplete
            (JobStateManager.addTask (task_type e) job) = true
          ↔ ∀ stage, stage ∈ JobStateManager.requiredTasks → stage ∈ tasks')
    as Hall.
  { rewrite Hadd. unfold JobStateManager.allTasksComplete.
    cbn [completedTasks]. rewrite forallb_forall. split.
    - intros H stage Hs. apply includes_true, H. by apply list_elem_of_In.
    - intros H stage Hs. apply includes_true, H. by apply list_elem_of_In. }
  split_and!.
  - intros other Hne.
    destruct (ev_status e); simpl;
      try destruct (JobStateManager.allTasksComplete _); simpl;
      rewrite ?lookup_insert_ne by done; done.
  - by intros ->.
  - intros [-> | ->]; simpl; by rewrite lookup_insert_eq.
  - intros -> Hfull. rewrite (proj2 Hall Hfull). simpl.
    by rewrite lookup_insert_eq, Hadd.
  - intros -> Hnot.
    destruct (JobStateManager.allTasksComplete _) eqn:Ha.
    + exfalso. apply Hnot. by apply Hall.
    + simpl. by rewrite lookup_insert_eq, Hadd.
Qed.

Lemma C2_events_after_terminal_witness :
  let e := mkEvent "J5" "drawer" st_success None in
  let job := mkJobStatus "J5" failed ["research"; "product_manager"] 0
               (Some 10) (Some "timeout") in
  jobs J5_world !! job_id e = Some job
  ∧ status job = failed
  ∧ jobs (TaskRouterApp.onCompletionEvent 20 e J5_world).2 !! "J5"
    = Some (mkJobStatus "J5" failed ["research"; "product_manager"; "drawer"] 0
              (Some 10) (Some "timeout")).
Proof.
  assert (jobs J5_world !! "J5"
          = Some (mkJobStatus "J5" failed ["research"; "product_manager"] 0
                    (Some 10) (Some "timeout"))) as Hjob
    by (vm_compute; reflexivity).
  split; [exact Hjob|]. split; [reflexivity|].
  refine (proj2 (proj2 (proj2 (proj2
            (C2_events_after_terminal 20 (mkEvent "J5" "drawer" st_success None)
               J5_world _ Hjob (or_introl eq_refl))))) eq_refl _).
  intros Hfull. specialize (Hfull "coder"). vm_compute in Hfull.
  assert ("coder" ∈ JobStateManager.requiredTasks) as Hin
    by (repeat constructor).
  specialize (Hfull Hin). apply list_elem_of_In in Hfull. simpl in Hfull.
  destruct Hfull as [H|[H|[H|[]]]]; discriminate H.
Defined.

(** ** C5: admitting the same job id twice *)

Section AdmissionFacts.

Lemma executeJob_frame now j spec w :
  jobs (TaskRouter.executeJob now j spec w).2 = jobs w.
Proof. apply sendTaskMessage_frame. Qed.

Lemma postJobs_valid now uuid spec w :
  truthy (product spec) = true →
  truthy (audience spec) = true →
  let id := admitted_id uuid spec in
  (APIServer.postJobs now uuid spec w).1 = Ok (mkResponse 201 [] (JobCreated id))
  ∧ jobs (APIServer.postJobs now uuid spec w).2
    = <[id := mkJobStatus id in_progress [] now None None]> (jobs w).
Proof.
  intros Hp Ha id. unfold APIServer.postJobs. fold (admitted_id uuid spec).
  fold id. rewrite Hp, Ha. simpl.
  unfold TaskRouterApp.createJob, TaskRouterApp.startJob,
    JobStateManager.startJob, JobStateManager.createJob.
  unfold_M. simpl. rewrite lookup_insert_eq. simpl.
  pose proof (executeJob_frame now id spec
                (set_jobs (λ _, <[id:=JobStateManager.set_status in_progress
                                        (mkJobStatus id queued [] now None None)]>
                                  (<[id:=mkJobStatus id queued [] now None None]> (jobs w)))
                   (set_jobs (insert id (mkJobStatus id queued [] now None None)) w)))
    as Hframe.
  destruct (TaskRouter.executeJob _ _ _ _) as [[[]|err] w']; simpl in *;
    rewrite ?Hframe, insert_insert_eq; done.
Qed.

End AdmissionFacts.

(** C5, the claim refuted: a second POST with the id of a running job is
    answered 201 like the first, and the record of the job is replaced by
    a fresh one: the completed research stage is gone and the start time
    is that of the second POST. *)
Lemma C5_second_admission_replaces_the_job :
  jobs J2_world !! "J2"
  = Some (mkJobStatus "J2" in_progress ["research"] 10 None None)
  ∧ (APIServer.postJobs 50 "77aa" J2_spec J2_world).1
    = Ok (mkResponse 201 [] (JobCreated "J2"))
  ∧ jobs (APIServer.postJobs 50 "77aa" J2_spec J2_world).2 !! "J2"
    = Some (mkJobStatus "J2" in_progress [] 50 None None).
Proof. split_and!; vm_compute; reflexivity. Qed.

(** C5 (amended): creating a job never fails. Every POST with a product
    and an audience is answered 201, also when the id is already in the
    index; the index then holds one record for the id, the fresh one of
    this POST (in progress, no completed stage, started now), and the
    records of the other ids are as before. *)
Theorem C5_admission_overwrites
        (now : Z) (uuid : string) (jobSpec : JobSpec) (w : World) :
  truthy (product jobSpec) = true →
  truthy (audience jobSpec) = true →
  let id := admitted_id uuid jobSpec in
  let r := APIServer.postJobs now uuid jobSpec w in
  r.1 = Ok (mkResponse 201 [] (JobCreated id))
  ∧ jobs r.2 !! id = Some (mkJobStatus id in_progress [] now None None)
  ∧ (∀ other, other ≠ id → jobs r.2 !! other = jobs w !! other).
Proof.
  intros Hp Ha id r.
  destruct (postJobs_valid now uuid jobSpec w Hp Ha) as [Hres Hjobs].
  subst r. fold id in Hres, Hjobs. rewrite Hres, Hjobs. split_and!.
  - done.
  - apply lookup_insert_eq.
  - intros other Hne. by apply lookup_insert_ne.
Qed.

Lemma C5_admission_overwrites_witness :
  truthy (product J2_spec) = true
  ∧ truthy (audience J2_spec) = true
  ∧ jobs (APIServer.postJobs 50 "77aa" J2_spec J2_world).2 !! "J2"
    = Some (mkJobStatus "J2" in_progress [] 50 None None).
Proof.
  split; [reflexivity|]. split; [reflexivity|].
  exact (proj1 (proj2 (C5_admission_overwrites 50 "77aa" J2_spec J2_world
                         eq_refl eq_refl))).
Defined.

(** ** C8: the reaper *)

(** C8, the claim refuted: a job that started 25 hours ago and completed
    one millisecond ago is evicted by the default sweep, although its
    completion is not older than 24 hours. *)
Lemma C8_recently_completed_job_is_evicted :
  let job := mkJobStatus "J8" completed JobStateManager.requiredTasks 0
               (Some 89999999) None in
  let now := 90000000 in
  (∀ t, completedAt job = Some t → ¬ (JobStateManager.defaultMaxAge < now - t))
  ∧ JobStateManager.cleanup now JobStateManager.defaultMaxAge (<["J8" := job]> ∅) !! "J8"
    = None.
Proof.
  split.
  - intros t [= <-]. vm_compute. discriminate.
  - vm_compute. reflexivity.
Qed.

(** C8 (amended): the reaper evicts exactly the jobs that are completed or
    failed and whose start time lies more than max_age before now; every
    other record is kept as it is, so a queued or in_progress job is never
    evicted, whatever its age. *)
Theorem C8_cleanup_evicts_by_start_time
        (now maxAge : Z) (m : gmap string JobStatus) (id : string) (job : JobStatus) :
  m !! id = Some job →
  (JobStateManager.cleanup now maxAge m !! id = None
   ↔ (status job = completed ∨ status job = failed) ∧ maxAge < now - startedAt job)
  ∧ (JobStateManager.cleanup now maxAge m !! id = None
     ∨ JobStateManager.cleanup now maxAge m !! id = Some job)
  ∧ (status job = queued ∨ status job = in_progress →
     JobStateManager.cleanup now maxAge m !! id = Some job).
Proof.
  intros Hjob. unfold JobStateManager.cleanup.
  assert (JobStateManager.expired now maxAge job = true
          ↔ (status job = completed ∨ status job = failed)
            ∧ maxAge < now - startedAt job) as Hexp.
  { unfold JobStateManager.expired.
    rewrite andb_true_iff, orb_true_iff, Z.ltb_lt, !bool_decide_eq_true. tauto. }
  destruct (JobStateManager.expired now maxAge job) eqn:Hb.
  - assert (filter (λ kv, JobStateManager.expired now maxAge kv.2 = false) m !! id
            = None) as Hnone.
    { apply map_lookup_filter_None. right. intros x Hx. simpl.
      assert (x = job) as -> by congruence. by rewrite Hb. }
    rewrite Hnone. split_and!.
    + split; [intros _; by apply Hexp | done].
    + by left.
    + intros Hst. destruct (proj1 Hexp eq_refl) as [[Hc|Hc] _];
        destruct Hst; congruence.
  - assert (filter (λ kv, JobStateManager.expired now maxAge kv.2 = false) m !! id
            = Some job) as Hsome.
    { apply map_lookup_filter_Some. by split. }
    rewrite Hsome. split_and!.
    + split; [done|]. intros Hc. apply Hexp in Hc. congruence.
    + by right.
    + done.
Qed.

Lemma C8_cleanup_evicts_by_start_time_witness :
  let job := mkJobStatus "J9" in_progress ["research"] 0 None None in
  (<["J9" := job]> ∅ : gmap string JobStatus) !! "J9" = Some job
  ∧ (status job = queued ∨ status job = in_progress)
  ∧ JobStateManager.cleanup 900000000 JobStateManager.defaultMaxAge
      (<["J9" := job]> ∅) !! "J9" = Some job.
Proof.
  assert ((<["J9" := mkJobStatus "J9" in_progress ["research"] 0 None None]> ∅
           : gmap string JobStatus) !! "J9"
          = Some (mkJobStatus "J9" in_progress ["research"] 0 None None)) as Hjob
    by (vm_compute; reflexivity).
  split; [exact Hjob|]. split; [right; reflexivity|].
  exact (proj2 (proj2 (C8_cleanup_evicts_by_start_time 900000000
                         JobStateManager.defaultMaxAge _ "J9" _ Hjob))
           (or_intror eq_refl)).
Defined.

(** ** C10: progress of a job on the tasks endpoint *)

(** C10: the code divides by three tasks, not five: a job with its five
    stages completed is listed with progress 167, not 100, and each stage
    adds a third of a hundred, not twenty. *)
Theorem C10_progress_of_five_stages_is_167 (w : World) (job : JobStatus) :
  length (completedTasks job) = 5%nat →
  APIServer.calculateJobProgress job = 167
  ∧ (∀ id, jobs w !! id = Some job → APIServer.toTask job ∈ APIServer.getTasks w)
  ∧ APIServer.progress (APIServer.toTask job) = 167.
Proof.
  intros Hlen.
  assert (APIServer.calculateJobProgress job = 167) as Hp.
  { unfold APIServer.calculateJobProgress. rewrite Hlen. reflexivity. }
  split_and!; [done| |done].
  intros id Hid. unfold APIServer.getTasks, JobStateManager.getAllJobs.
  apply list_elem_of_fmap. exists job. split; [done|].
  apply list_elem_of_fmap. exists (id, job). split; [done|].
  by apply elem_of_map_to_list.
Qed.

Lemma C10_progress_of_five_stages_is_167_witness :
  let job := mkJobStatus "J1" completed JobStateManager.requiredTasks 0 (Some 10) None in
  length (completedTasks job) = 5%nat
  ∧ APIServer.calculateJobProgress job = 167.
Proof.
  split; [reflexivity|].
  exact (proj1 (C10_progress_of_five_stages_is_167 J1_done_world
                  (mkJobStatus "J1" completed JobStateManager.requiredTasks 0
                     (Some 10) None) eq_refl)).
Defined.

(** ** C7: which messages the events consumer deletes *)

(** C7, the claim refuted: an unparseable message is not deleted, and the
    message of a success event is deleted although dispatching the next
    stage threw (the research result is missing). *)
Lemma C7_poison_kept_and_failed_event_deleted :
  deleted (TaskRouterApp.startEventConsumer
             [(5, SQSMessaging.mkMessage "m-1" "rh-1" (SQSMessaging.Malformed "{oops"))]
             J7_world).2 = []
  ∧ (TaskRouter.handleTaskCompletion 5 "J7" "research" J7_world).1
    = Throw (NoSuchKey "J7/research-result.json")
  ∧ deleted (TaskRouterApp.startEventConsumer
               [(5, SQSMessaging.mkMessage "m-2" "rh-2"
                      (SQSMessaging.EventJson (mkEvent "J7" "research" st_success None)))]
               J7_world).2 = ["rh-2"].
Proof. split_and!; vm_compute; reflexivity. Qed.

(** C7 (amended): the events consumer leaves an unparseable message on
    the queue, untouched, like a message whose handler raises an
    exception; it deletes a message exactly after the body parsed and the
    handler returned. *)
Theorem C7_message_deleted_only_after_handling
        (handler : CompletionEvent → M unit) (msg : SQSMessaging.Message) (w : World) :
  (∀ raw, SQSMessaging.MsgBody msg = SQSMessaging.Malformed raw →
          (SQSMessaging.consumeMessage handler msg w).2 = w)
  ∧ (∀ e err w', SQSMessaging.MsgBody msg = SQSMessaging.EventJson e →
                 handler e w = (Throw err, w') →
                 (SQSMessaging.consumeMessage handler msg w).2 = w')
  ∧ (∀ e w', SQSMessaging.MsgBody msg = SQSMessaging.EventJson e →
             handler e w = (Ok tt, w') →
             (SQSMessaging.consumeMessage handler msg w).2
             = mkWorld (jobs w') (s3 w') (sent w')
                       (deleted w' ++ [SQSMessaging.ReceiptHandle msg])).
Proof.
  unfold SQSMessaging.consumeMessage, SQSMessaging.JSON_parse,
    SQSMessaging.deleteMessage.
  unfold_M. split_and!.
  - by intros raw ->.
  - intros e err w' -> Hh. simpl. by rewrite Hh.
  - intros e w' -> Hh. simpl. by rewrite Hh.
Qed.

Lemma C7_message_deleted_only_after_handling_witness :
  let msg := SQSMessaging.mkMessage "m-1" "rh-1" (SQSMessaging.Malformed "{oops") in
  SQSMessaging.MsgBody msg = SQSMessaging.Malformed "{oops"
  ∧ (SQSMessaging.consumeMessage (TaskRouterApp.onCompletionEvent 5) msg J7_world).2
    = J7_world.
Proof.
  split; [reflexivity|].
  exact (proj1 (C7_message_deleted_only_after_handling
                  (TaskRouterApp.onCompletionEvent 5)
                  (SQSMessaging.mkMessage "m-1" "rh-1" (SQSMessaging.Malformed "{oops"))
                  J7_world) "{oops" eq_refl).
Defined.

(** ** C6: events for a job the index does not know *)

(** C6: for a success event of an unknown job the index and its statistics
    stay as they are and the message is deleted, but the router still
    runs the dispatch for the reported task; for the task [coder] it
    announces the unknown job as completed on the events queue. *)
Theorem C6_unknown_job_event_still_dispatches
        (now : Z) (msg : SQSMessaging.Message) (e : CompletionEvent) (w : World) :
  SQSMessaging.MsgBody msg = SQSMessaging.EventJson e →
  jobs w !! job_id e = None →
  ev_status e = st_success →
  let w' := (SQSMessaging.consumeMessage (TaskRouterApp.onCompletionEvent now) msg w).2 in
  jobs w' = jobs w
  ∧ JobStateManager.getStats (jobs w') = JobStateManager.getStats (jobs w)
  ∧ deleted w' = (deleted w ++ [SQSMessaging.ReceiptHandle msg])%list
  ∧ sent w' = sent (TaskRouter.handleTaskCompletion now (job_id e) (task_type e) w).2
  ∧ (task_type e = "coder" →
     sent w' = (sent w ++ [mkSent events (DoneBody (job_id e) now)])%list).
Proof.
  intros Hbody Hjob Hst w'.
  assert ((TaskRouterApp.onCompletionEvent now e w).2
          = (TaskRouter.handleTaskCompletion now (job_id e) (task_type e) w).2) as Hh.
  { unfold TaskRouterApp.onCompletionEvent, TaskRouterApp.completeTask,
      JobStateManager.completeTask.
    unfold_M. rewrite Hst. simpl. rewrite Hjob. simpl.
    replace (set_jobs (λ _, jobs w) w) with w by by destruct w.
    by destruct (TaskRouter.handleTaskCompletion _ _ _ w) as [[[]|err] w1]. }
  pose proof (onCompletionEvent_returns now e w) as Hok.
  destruct (TaskRouterApp.onCompletionEvent now e w) as [r w1] eqn:Hrun.
  simpl in Hok, Hh. subst r.
  pose proof (consumeMessage_handled (TaskRouterApp.onCompletionEvent now)
                msg w e w1 Hbody Hrun) as Hw'.
  subst w'. rewrite Hw'. simpl.
  destruct (handleTaskCompletion_frame now (job_id e) (task_type e) w) as [Hj Hd].
  rewrite Hh, Hj, Hd. split_and!; try done.
  intros ->. reflexivity.
Qed.

Lemma C6_unknown_job_event_still_dispatches_witness :
  let e := mkEvent "ghost" "coder" st_success None in
  let msg := SQSMessaging.mkMessage "m-6" "rh-6" (SQSMessaging.EventJson e) in
  let w := mkWorld ∅ ∅ [] [] in
  SQSMessaging.MsgBody msg = SQSMessaging.EventJson e
  ∧ jobs w !! job_id e = None
  ∧ ev_status e = st_success
  ∧ sent (SQSMessaging.consumeMessage (TaskRouterApp.onCompletionEvent 5) msg w).2
    = [mkSent events (DoneBody "ghost" 5)].
Proof.
  split; [reflexivity|]. split; [reflexivity|]. split; [reflexivity|].
  exact (proj2 (proj2 (proj2 (proj2
           (C6_unknown_job_event_still_dispatches 5
              (SQSMessaging.mkMessage "m-6" "rh-6"
                 (SQSMessaging.EventJson (mkEvent "ghost" "coder" st_success None)))
              (mkEvent "ghost" "coder" st_success None) (mkWorld ∅ ∅ [] [])
              eq_refl eq_refl eq_refl)))) eq_refl).
Defined.

(** ** Facts about dispatch and announcements *)

Section DispatchFacts.

Lemma job_completed_sent_task w w' q j t k now :
  sent w' = (sent w ++ [mkSent q (TaskBody j t k now)])%list →
  job_completed_sent w' = job_completed_sent w.
Proof.
  intros Hs. unfold job_completed_sent. rewrite Hs, filter_app.
  rewrite filter_cons_False by (simpl; discriminate).
  by rewrite filter_nil, app_nil_r.
Qed.

Lemma sendTaskMessage_sent now j t p w :
  sent (SQSMessaging.sendTaskMessage now j t p w).2 = sent w
  ∨ ∃ q k, sent (SQSMessaging.sendTaskMessage now j t p w).2
           = (sent w ++ [mkSent q (TaskBody j t k now)])%list.
Proof.
  unfold SQSMessaging.sendTaskMessage, S3Storage.storePayload, S3Storage.store,
    SQSMessaging.getQueueUrl, SQSMessaging.sendMessage.
  unfold_M. simpl. repeat case_match; simplify_eq/=; eauto.
Qed.

Lemma get_then_send_no_announcement key now j t (f : Json → Json) w :
  job_completed_sent
    ((d ← S3Storage.get key; SQSMessaging.sendTaskMessage now j t (f d)) w).2
  = job_completed_sent w.
Proof.
  unfold S3Storage.get, mbind, M_bind, bind.
  destruct (s3 w !! key) as [d|]; lazy beta iota; [|done].
  destruct (sendTaskMessage_sent now j t (f d) w) as [Hs|(q & k & Hs)].
  - unfold job_completed_sent. by rewrite Hs.
  - by eapply job_completed_sent_task.
Qed.

(** Only the completion of [coder] can announce a job as completed. *)
Lemma handleTaskCompletion_no_announcement now j t w :
  t ≠ "coder" →
  job_completed_sent (TaskRouter.handleTaskCompletion now j t w).2
  = job_completed_sent w.
Proof.
  intros Hne. unfold TaskRouter.handleTaskCompletion.
  destruct (String.eqb t "research");
    [apply (get_then_send_no_announcement _ _ _ _ (λ d, TaskRouter.payload (_, d) _ _))|].
  destruct (String.eqb t "product_manager");
    [apply (get_then_send_no_announcement _ _ _ _ (λ d, TaskRouter.payload (_, d) _ _))|].
  destruct (String.eqb t "drawer");
    [apply (get_then_send_no_announcement _ _ _ _ (λ d, TaskRouter.payload (_, d) _ _))|].
  destruct (String.eqb t "designer");
    [apply (get_then_send_no_announcement _ _ _ _ (λ d, TaskRouter.payload (_, d) _ _))|].
  destruct (String.eqb t "coder") eqn:Hc; [|done].
  by apply String.eqb_eq in Hc.
Qed.

Lemma agentStores_frame uploads w :
  jobs (agentStores uploads w) = jobs w
  ∧ sent (agentStores uploads w) = sent w
  ∧ deleted (agentStores uploads w) = deleted w.
Proof. done. Qed.

(** A round whose success event leaves tasks open. *)
Lemma round_open uploads now e w job :
  jobs w !! job_id e = Some job →
  ev_status e = st_success →
  JobStateManager.allTasksComplete
    (JobStateManager.addTask (task_type e) job) = false →
  task_type e ≠ "coder" →
  jobs (round (uploads, now, e) w) !! job_id e
  = Some (JobStateManager.addTask (task_type e) job)
  ∧ job_completed_sent (round (uploads, now, e) w) = job_completed_sent w.
Proof.
  intros Hjob Hst Hopen Hne. unfold round. simpl.
  rewrite (onCompletionEvent_success_open now e (agentStores uploads w) job)
    by done.
  split.
  - simpl. apply lookup_insert_eq.
  - unfold job_completed_sent at 1. simpl.
    fold (job_completed_sent
            (TaskRouter.handleTaskCompletion now (job_id e) (task_type e)
               (agentStores uploads w)).2).
    by rewrite handleTaskCompletion_no_announcement.
Qed.

(** A round whose success event completes the job. *)
Lemma round_complete uploads now e w job :
  jobs w !! job_id e = Some job →
  ev_status e = st_success →
  JobStateManager.allTasksComplete
    (JobStateManager.addTask (task_type e) job) = true →
  jobs (round (uploads, now, e) w) !! job_id e
  = Some (JobStateManager.set_completedAt now
            (JobStateManager.set_status completed
               (JobStateManager.addTask (task_type e) job)))
  ∧ sent (round (uploads, now, e) w) = sent w.
Proof.
  intros Hjob Hst Hall. unfold round. simpl.
  rewrite (onCompletionEvent_success_complete now e (agentStores uploads w) job)
    by done.
  split; [simpl; apply lookup_insert_eq | done].
Qed.

Lemma sendTaskMessage_set_jobs now j t p f w :
  SQSMessaging.sendTaskMessage now j t p (set_jobs f w)
  = ((SQSMessaging.sendTaskMessage now j t p w).1,
     set_jobs f (SQSMessaging.sendTaskMessage now j t p w).2).
Proof.
  unfold SQSMessaging.sendTaskMessage, S3Storage.storePayload, S3Storage.store,
    SQSMessaging.getQueueUrl, SQSMessaging.sendMessage.
  unfold_M. simpl. repeat case_match; simplify_eq/=; done.
Qed.

(** A valid POST: the fresh record, and the dispatch of research. *)
Lemma postJobs_world now uuid spec w :
  truthy (product spec) = true →
  truthy (audience spec) = true →
  let id := admitted_id uuid spec in
  (APIServer.postJobs now uuid spec w).2
  = set_jobs (λ _, <[id := mkJobStatus id in_progress [] now None None]> (jobs w))
      (TaskRouter.executeJob now id spec w).2.
Proof.
  intros Hp Ha id. unfold APIServer.postJobs. fold (admitted_id uuid spec).
  fold id. rewrite Hp, Ha. simpl.
  unfold TaskRouterApp.createJob, TaskRouterApp.startJob,
    JobStateManager.startJob, JobStateManager.createJob.
  unfold_M. simpl. rewrite lookup_insert_eq. simpl.
  unfold set_jobs. simpl. by rewrite insert_insert_eq.
Qed.

Lemma postJobs_no_announcement now uuid spec w :
  truthy (product spec) = true →
  truthy (audience spec) = true →
  job_completed_sent (APIServer.postJobs now uuid spec w).2 = job_completed_sent w.
Proof.
  intros Hp Ha. rewrite postJobs_world by done.
  eapply job_completed_sent_task. simpl. reflexivity.
Qed.

End DispatchFacts.

(** ** C3: the announcement of a completed job *)

(** C3: after the admission of a job and the success events of its five
    stages in canonical order, each handled after whatever the agents
    stored, the job is completed with all five stages, and the router has
    sent no [job_completed] message: when [completeTask] reports the job
    complete the handler only counts it, and [completeJob], which would
    publish the announcement, hangs off the branch for jobs that are not
    yet complete. *)
Theorem C3_canonical_run_announces_nothing
        (w0 : World) (t0 : Z) (uuid : string) (jobSpec : JobSpec)
        (rs : list (list (string * Json) * Z * CompletionEvent)) :
  truthy (product jobSpec) = true →
  truthy (audience jobSpec) = true →
  let j := admitted_id uuid jobSpec in
  (λ r, r.2) <$> rs
  = (λ t, mkEvent j t st_success None) <$> JobStateManager.requiredTasks →
  let w := rounds rs (APIServer.postJobs t0 uuid jobSpec w0).2 in
  (∃ t5, jobs w !! j
         = Some (mkJobStatus j completed JobStateManager.requiredTasks t0 (Some t5) None))
  ∧ job_completed_sent w = job_completed_sent w0.
Proof.
  intros Hp Ha j Hrs.
  destruct rs as [|[[u1 n1] e1] [|[[u2 n2] e2] [|[[u3 n3] e3]
                 [|[[u4 n4] e4] [|[[u5 n5] e5] [|? ?]]]]]];
    try discriminate Hrs.
  injection Hrs as -> -> -> -> ->.
  unfold rounds. cbn [foldl].
  set (wa := (APIServer.postJobs t0 uuid jobSpec w0).2).
  assert (jobs wa !! j = Some (mkJobStatus j in_progress [] t0 None None)) as Hj0.
  { subst wa. rewrite postJobs_world by done. simpl. apply lookup_insert_eq. }
  assert (job_completed_sent wa = job_completed_sent w0) as Hs0
    by by apply postJobs_no_announcement.
  set (w1 := round (u1, n1, mkEvent j "research" st_success None) wa).
  destruct (round_open u1 n1 (mkEvent j "research" st_success None) wa _ Hj0
              eq_refl eq_refl ltac:(discriminate)) as [Hj1 Hs1].
  fold w1 in Hj1, Hs1.
  set (w2 := round (u2, n2, mkEvent j "product_manager" st_success None) w1).
  destruct (round_open u2 n2 (mkEvent j "product_manager" st_success None) w1 _ Hj1
              eq_refl eq_refl ltac:(discriminate)) as [Hj2 Hs2].
  fold w2 in Hj2, Hs2.
  set (w3 := round (u3, n3, mkEvent j "drawer" st_success None) w2).
  destruct (round_open u3 n3 (mkEvent j "drawer" st_success None) w2 _ Hj2
              eq_refl eq_refl ltac:(discriminate)) as [Hj3 Hs3].
  fold w3 in Hj3, Hs3.
  set (w4 := round (u4, n4, mkEvent j "designer" st_success None) w3).
  destruct (round_open u4 n4 (mkEvent j "designer" st_success None) w3 _ Hj3
              eq_refl eq_refl ltac:(discriminate)) as [Hj4 Hs4].
  fold w4 in Hj4, Hs4.
  destruct (round_complete u5 n5 (mkEvent j "coder" st_success None) w4 _ Hj4
              eq_refl eq_refl) as [Hj5 Hs5].
  split.
  - exists n5. exact Hj5.
  - transitivity (job_completed_sent w4); [|congruence].
    unfold job_completed_sent. by rewrite Hs5.
Qed.

Lemma C3_canonical_run_announces_nothing_witness :
  let jobSpec := mkJobSpec (Some "Acme Widget") (Some "Developers") (Some "technical")
                           (Some "J1") in
  let ev t := mkEvent "J1" t st_success None in
  let rs := [([("J1/research-result.json", JObject [])], 20, ev "research");
             ([("J1/product-manager-result.json", JObject [])], 30, ev "product_manager");
             ([("J1/drawer-result.json", JObject [])], 40, ev "drawer");
             ([("J1/designer-result.json", JObject [])], 50, ev "designer");
             ([("J1/coder-result.json", JObject [])], 60, ev "coder")] in
  let w := rounds rs (APIServer.postJobs 10 "5d0c" jobSpec (mkWorld ∅ ∅ [] [])).2 in
  truthy (product jobSpec) = true
  ∧ truthy (audience jobSpec) = true
  ∧ (status <$> jobs w !! "J1") = Some completed
  ∧ job_completed_sent w = [].
Proof.
  split; [reflexivity|]. split; [reflexivity|].
  pose proof (C3_canonical_run_announces_nothing (mkWorld ∅ ∅ [] []) 10 "5d0c"
                (mkJobSpec (Some "Acme Widget") (Some "Developers") (Some "technical")
                           (Some "J1"))
                [([("J1/research-result.json", JObject [])], 20,
                  mkEvent "J1" "research" st_success None);
                 ([("J1/product-manager-result.json", JObject [])], 30,
                  mkEvent "J1" "product_manager" st_success None);
                 ([("J1/drawer-result.json", JObject [])], 40,
                  mkEvent "J1" "drawer" st_success None);
                 ([("J1/designer-result.json", JObject [])], 50,
                  mkEvent "J1" "designer" st_success None);
                 ([("J1/coder-result.json", JObject [])], 60,
                  mkEvent "J1" "coder" st_success None)]
                eq_refl eq_refl eq_refl) as [[t5 Hjob] Hsent].
  split; [|exact Hsent].
  change (admitted_id "5d0c" _) with "J1" in Hjob.
  rewrite Hjob. reflexivity.
Defined.

(** ** C4: delivering a success event more than once *)

Section RedeliveryFacts.

(** Deliveries of a success event whose task is already recorded, for a
    job with open tasks: the index stays put, every delivery dispatches. *)
Lemma redelivery_steady msgs e w job :
  Forall (carries e) msgs →
  ev_status e = st_success →
  jobs w !! job_id e = Some job →
  task_type e ∈ completedTasks job →
  JobStateManager.allTasksComplete job = false →
  let w' := (TaskRouterApp.startEventConsumer msgs w).2 in
  jobs w' = jobs w
  ∧ ∀ next q suffix d,
      successor (task_type e) = Some (next, q, suffix) →
      s3 w !! (job_id e ++ suffix) = Some d →
      sent w' = (sent w ++ ((λ m, taskMessage (job_id e) next q m.1) <$> msgs))%list.
Proof.
  intros Hall Hst. revert w.
  unfold TaskRouterApp.startEventConsumer.
  induction Hall as [|[now msg] rest Hmsg Hrest IH]; intros w Hjob Hin Hopen.
  - simpl. split; [done|]. intros. by rewrite app_nil_r.
  - rewrite consumeEvents_cons.
    pose proof (onCompletionEvent_returns now e w) as Hok.
    pose proof (onCompletionEvent_success_open now e w job Hjob Hst) as Hw1.
    rewrite addTask_old in Hw1 by done. specialize (Hw1 Hopen).
    rewrite insert_id in Hw1 by done.
    destruct (TaskRouterApp.onCompletionEvent now e w) as [r w1] eqn:Hrun.
    simpl in Hok, Hw1. subst r.
    rewrite (consumeMessage_handled _ msg w e w1 Hmsg Hrun).
    set (w2 := mkWorld _ _ _ _).
    destruct (handleTaskCompletion_frame now (job_id e) (task_type e) w) as [Hj _].
    assert (jobs w2 = jobs w) as Hj2 by (subst w2 w1; simpl; done).
    destruct (IH w2) as [IHj IHs]; [by rewrite Hj2|done|done|].
    split; [by rewrite IHj|].
    intros next q suffix d Hsucc Hart.
    destruct (handleTaskCompletion_dispatch now (job_id e) (task_type e) w
                next q suffix d Hsucc Hart) as (_ & Hs & Ha).
    rewrite (IHs next q suffix d Hsucc) by (subst w2 w1; simpl; done).
    subst w2 w1. simpl. rewrite Hs. by rewrite <- app_assoc.
Qed.

End RedeliveryFacts.

(** C4, the claim refuted: two deliveries of the research success leave
    [research] once in the list, and put two task messages on the queue of
    the product manager. *)
Lemma C4_second_delivery_dispatches_again :
  let w := (TaskRouterApp.startEventConsumer
              [(20, research_done "rh-1"); (21, research_done "rh-2")] J3_world).2 in
  (completedTasks <$> jobs w !! "J3") = Some ["research"]
  ∧ filter (λ m, QueueUrl m = productManager) (sent w)
    = [taskMessage "J3" "product_manager" productManager 20;
       taskMessage "J3" "product_manager" productManager 21].
Proof. split; vm_compute; reflexivity. Qed.

(** C4 (amended): when a success event is processed N ≥ 1 times for a job
    that still has open tasks afterwards, the job index ends as after
    processing it once; every processing dispatches the successor stage
    again, so with the stage's result in the bucket N task messages are
    put on the successor's queue, one per processing. *)
Theorem C4_redelivery_keeps_state_and_dispatches_each_time
        (msgs : list (Z * SQSMessaging.Message)) (e : CompletionEvent)
        (w : World) (job : JobStatus) :
  msgs ≠ [] →
  Forall (carries e) msgs →
  ev_status e = st_success →
  jobs w !! job_id e = Some job →
  JobStateManager.allTasksComplete
    (JobStateManager.addTask (task_type e) job) = false →
  let w' := (TaskRouterApp.startEventConsumer msgs w).2 in
  (∀ now, jobs w' = jobs (TaskRouterApp.onCompletionEvent now e w).2)
  ∧ (∀ next q suffix d,
       successor (task_type e) = Some (next, q, suffix) →
       s3 w !! (job_id e ++ suffix) = Some d →
       sent w' = (sent w ++ ((λ m, taskMessage (job_id e) next q m.1) <$> msgs))%list
       ∧ length (sent w') = (length (sent w) + length msgs)%nat).
Proof.
  intros Hne Hall Hst Hjob Hopen.
  destruct msgs as [|[now msg] rest]; [done|]. clear Hne.
  apply Forall_cons in Hall as [Hmsg Hrest].
  unfold TaskRouterApp.startEventConsumer. rewrite consumeEvents_cons.
  pose proof (onCompletionEvent_returns now e w) as Hok.
  pose proof (onCompletionEvent_success_open now e w job Hjob Hst Hopen) as Hw1.
  destruct (TaskRouterApp.onCompletionEvent now e w) as [r w1] eqn:Hrun.
  simpl in Hok, Hw1. subst r.
  rewrite (consumeMessage_handled _ msg w e w1 Hmsg Hrun).
  set (w2 := mkWorld _ _ _ _).
  set (job1 := JobStateManager.addTask (task_type e) job) in *.
  assert (jobs w2 = <[job_id e := job1]> (jobs w)) as Hj2
    by (subst w2 w1; simpl; done).
  assert (task_type e ∈ completedTasks job1) as Hin.
  { subst job1. destruct (decide (task_type e ∈ completedTasks job)) as [Hd|Hd].
    - by rewrite addTask_old.
    - rewrite addTask_new by done. simpl. set_solver. }
  destruct (redelivery_steady rest e w2 job1 Hrest Hst) as [Hj Hs].
  { rewrite Hj2. apply lookup_insert_eq. }
  { done. }
  { exact Hopen. }
  fold (TaskRouterApp.startEventConsumer rest w2). split.
  - intros now'. rewrite Hj, Hj2.
    by rewrite (onCompletionEvent_success_open now' e w job Hjob Hst Hopen).
  - intros next q suffix d Hsucc Hart.
    destruct (handleTaskCompletion_dispatch now (job_id e) (task_type e) w
                next q suffix d Hsucc Hart) as (_ & Hs1 & Ha).
    assert (sent (TaskRouterApp.startEventConsumer rest w2).2
            = (sent w ++ ((λ m, taskMessage (job_id e) next q m.1)
                            <$> ((now, msg) :: rest)))%list) as Hsent.
    { rewrite (Hs next q suffix d Hsucc) by (subst w2 w1; simpl; done).
      subst w2 w1. simpl. rewrite Hs1. by rewrite <- app_assoc. }
    split; [done|]. rewrite Hsent, length_app, length_fmap. done.
Qed.

Lemma C4_redelivery_keeps_state_and_dispatches_each_time_witness :
  let e := mkEvent "J3" "research" st_success None in
  let msgs := [(20, research_done "rh-1"); (21, research_done "rh-2")] in
  let job := mkJobStatus "J3" in_progress [] 10 None None in
  msgs ≠ []
  ∧ Forall (carries e) msgs
  ∧ ev_status e = st_success
  ∧ jobs J3_world !! job_id e = Some job
  ∧ JobStateManager.allTasksComplete
      (JobStateManager.addTask (task_type e) job) = false
  ∧ jobs (TaskRouterApp.startEventConsumer msgs J3_world).2
    = jobs (TaskRouterApp.onCompletionEvent 20 e J3_world).2.
Proof.
  assert ([(20, research_done "rh-1"); (21, research_done "rh-2")] ≠ []) as Hne
    by discriminate.
  assert (Forall (carries (mkEvent "J3" "research" st_success None))
            [(20, research_done "rh-1"); (21, research_done "rh-2")]) as Hall
    by (repeat constructor).
  assert (jobs J3_world !! "J3"
          = Some (mkJobStatus "J3" in_progress [] 10 None None)) as Hjob
    by (vm_compute; reflexivity).
  split; [exact Hne|]. split; [exact Hall|]. split; [reflexivity|].
  split; [exact Hjob|]. split; [reflexivity|].
  exact (proj1 (C4_redelivery_keeps_state_and_dispatches_each_time _
                  (mkEvent "J3" "research" st_success None) J3_world _
                  Hne Hall eq_refl Hjob eq_refl) 20).
Defined.

(** ** The limiter of the web route *)

Section RateLimitFacts.
Import WebJobs.

(** An accepted check records the time of the request. *)
Lemma checkRateLimit_true t ip (store : gmap string Z) :
  (checkRateLimit t ip store).1 = true →
  (checkRateLimit t ip store).2 = <[ip := t]> store.
Proof. unfold checkRateLimit. repeat case_match; simpl; done. Qed.

(** A rejected check changes nothing. *)
Lemma checkRateLimit_false t ip (store : gmap string Z) :
  (checkRateLimit t ip store).1 = false →
  (checkRateLimit t ip store).2 = store.
Proof. unfold checkRateLimit. repeat case_match; simpl; done. Qed.

(** Within the window of a recorded request the same address is refused. *)
Lemma checkRateLimit_within t ip (store : gmap string Z) t1 :
  store !! ip = Some t1 → t1 ≠ 0 → t - t1 < RATE_LIMIT_WINDOW →
  checkRateLimit t ip store = (false, store).
Proof.
  intros Hip Hnz Hlt. unfold checkRateLimit. rewrite Hip.
  destruct (Z.eqb_spec t1 0) as [|_]; [done|].
  destruct (Z.leb_spec RATE_LIMIT_WINDOW (t - t1)); [lia|done].
Qed.

Lemma cleanupRateLimitStore_keeps t ip (store : gmap string Z) t1 :
  store !! ip = Some t1 → t - t1 ≤ RATE_LIMIT_WINDOW →
  cleanupRateLimitStore t store !! ip = Some t1.
Proof.
  intros Hip Hle. unfold cleanupRateLimitStore.
  apply map_lookup_filter_Some. split; [done|]. simpl. lia.
Qed.

(** The limiter's store after a call of the route. *)
Lemma POST_store env rq ww :
  rateLimitStore (POST env rq ww).2
  = let checked := checkRateLimit (now env) (getClientIP rq) (rateLimitStore ww) in
    if checked.1
    then if random_hit env then cleanupRateLimitStore (now env) checked.2
         else checked.2
    else checked.2.
Proof. unfold POST. repeat case_match; done. Qed.

Lemma POST_refused env rq ww :
  (checkRateLimit (now env) (getClientIP rq) (rateLimitStore ww)).1 = false →
  POST env rq ww = (rateLimited, ww).
Proof.
  intros Hc. unfold POST. rewrite Hc. simpl.
  rewrite checkRateLimit_false by done. by destruct ww.
Qed.

Lemma POST_not_429 env rq ww :
  statusCode (POST env rq ww).1 ≠ 429 →
  (checkRateLimit (now env) (getClientIP rq) (rateLimitStore ww)).1 = true.
Proof.
  intros Hcode.
  destruct (checkRateLimit (now env) (getClientIP rq) (rateLimitStore ww)).1
    eqn:Hc; [done|].
  rewrite POST_refused in Hcode by done. done.
Qed.

(** A call that gets past the limiter leaves its time under its address. *)
Lemma POST_accepted_records env rq ww :
  statusCode (POST env rq ww).1 ≠ 429 →
  rateLimitStore (POST env rq ww).2 !! getClientIP rq = Some (now env).
Proof.
  intros Hcode. apply POST_not_429 in Hcode.
  rewrite POST_store. simpl. rewrite Hcode, checkRateLimit_true by done.
  destruct (random_hit env).
  - apply cleanupRateLimitStore_keeps; [apply lookup_insert_eq|].
    unfold RATE_LIMIT_WINDOW. lia.
  - apply lookup_insert_eq.
Qed.

(** While the window of a recorded request is open, no call of the route
    removes or replaces the record. *)
Lemma POST_keeps_record env rq ww ip t1 :
  rateLimitStore ww !! ip = Some t1 → t1 ≠ 0 →
  now env - t1 < RATE_LIMIT_WINDOW →
  rateLimitStore (POST env rq ww).2 !! ip = Some t1.
Proof.
  intros Hip Hnz Hlt. rewrite POST_store. simpl.
  destruct (decide (getClientIP rq = ip)) as [->|Hne].
  - by rewrite (checkRateLimit_within _ _ _ t1).
  - destruct (checkRateLimit (now env) (getClientIP rq) (rateLimitStore ww)).1
      eqn:Hc.
    + rewrite checkRateLimit_true by done.
      assert (<[getClientIP rq := now env]> (rateLimitStore ww) !! ip = Some t1)
        as Hkeep by by rewrite lookup_insert_ne.
      destruct (random_hit env); [|done].
      apply cleanupRateLimitStore_keeps; [done|lia].
    + by rewrite checkRateLimit_false.
Qed.

Lemma serve_keeps_record reqs ww ip t1 bound :
  rateLimitStore ww !! ip = Some t1 → t1 ≠ 0 →
  Forall (λ er, now er.1 ≤ bound) reqs →
  bound - t1 < RATE_LIMIT_WINDOW →
  rateLimitStore (serve reqs ww).2 !! ip = Some t1.
Proof.
  intros Hip Hnz Hall Hlt. revert ww Hip.
  induction Hall as [|[env rq] rest Hle Hrest IH]; intros ww Hip; [done|].
  simpl. apply IH. apply POST_keeps_record; [done|done|]. simpl in Hle. lia.
Qed.

End RateLimitFacts.

(** ** C9: no rate limit on the submission endpoint of the router *)

Section RouterPostFacts.

(** The router answers 201 or 400, without headers. *)
Lemma postJobs_answer now uuid spec w :
  ∃ resp, (APIServer.postJobs now uuid spec w).1 = Ok resp
          ∧ statusCode resp ≠ 429 ∧ headers resp = [].
Proof.
  destruct (truthy (product spec)) eqn:Hp; [destruct (truthy (audience spec)) eqn:Ha|].
  - destruct (postJobs_valid now uuid spec w Hp Ha) as [-> _].
    eexists. split_and!; [done|simpl; discriminate|done].
  - unfold APIServer.postJobs. unfold_M. rewrite Hp, Ha. simpl.
    eexists. split_and!; [done|simpl; discriminate|done].
  - unfold APIServer.postJobs. unfold_M. rewrite Hp. simpl.
    eexists. split_and!; [done|simpl; discriminate|done].
Qed.

Lemma postAll_snoc pre now uuid spec w :
  postAll (pre ++ [(now, uuid, spec)]) w
  = (((postAll pre w).1 ++ [(APIServer.postJobs now uuid spec (postAll pre w).2).1])%list,
     (APIServer.postJobs now uuid spec (postAll pre w).2).2).
Proof.
  revert w. induction pre as [|[[n u] sp] pre IH]; intros w; [done|].
  simpl. by rewrite IH.
Qed.

End RouterPostFacts.

(** C9, the claim refuted: two POSTs to [/api/router/jobs] one millisecond
    apart, which the handler does not tell apart by their source, are
    both answered 201, and the second one changes the job index: it adds
    its record. *)
Lemma C9_second_post_is_admitted_at_once :
  let spec id := mkJobSpec (Some "Acme Widget") (Some "Developers") None (Some id) in
  let first := postAll [(1000, "5d0c", spec "J8")] initial in
  let both := postAll [(1000, "5d0c", spec "J8"); (1001, "77aa", spec "J9")] initial in
  both.1 = [Ok (mkResponse 201 [] (JobCreated "J8"));
            Ok (mkResponse 201 [] (JobCreated "J9"))]
  ∧ jobs first.2 !! "J9" = None
  ∧ jobs both.2 !! "J9" = Some (mkJobStatus "J9" in_progress [] 1001 None None)
  ∧ jobs both.2 !! "J8" = Some (mkJobStatus "J8" in_progress [] 1000 None None).
Proof. split_and!; vm_compute; reflexivity. Qed.

(** C9 (amended): the submission endpoint of the router,
    [POST /api/router/jobs], has no rate limit. No POST is answered 429
    or given a header such as Retry-After, whatever was posted before and
    however short the time since; and when every POST carries a product
    and an audience, every one of them is answered 201 with its job id,
    and each admits its job: it puts a fresh record in progress under
    that id into the job index, so a second POST within 60 seconds
    succeeds and changes the index. *)
Theorem C9_router_posts_are_not_rate_limited
        (posts : list (Z * string * JobSpec)) (w : World) :
  Forall (λ r, ∃ resp, r = Ok resp ∧ statusCode resp ≠ 429 ∧ headers resp = [])
         (postAll posts w).1
  ∧ (Forall (λ p, truthy (product p.2) = true ∧ truthy (audience p.2) = true) posts →
     (postAll posts w).1
     = ((λ p, Ok (mkResponse 201 [] (JobCreated (admitted_id p.1.2 p.2)))) <$> posts)
     ∧ ∀ pre now uuid jobSpec,
         posts = (pre ++ [(now, uuid, jobSpec)])%list →
         let id := admitted_id uuid jobSpec in
         jobs (postAll posts w).2
         = <[id := mkJobStatus id in_progress [] now None None]>
             (jobs (postAll pre w).2)).
Proof.
  split; [|intros Hvalid; split].
  - revert w. induction posts as [|[[now uuid] spec] rest IH]; intros w; simpl.
    + constructor.
    + constructor; [|apply IH].
      destruct (postJobs_answer now uuid spec w) as (resp & Hr & Hcode & Hh).
      by exists resp.
  - revert w. induction Hvalid as [|[[now uuid] spec] rest [Hp Ha] Hrest IH];
      intros w; [done|].
    simpl in Hp, Ha. simpl. rewrite IH.
    by destruct (postJobs_valid now uuid spec w Hp Ha) as [-> _].
  - intros pre now uuid spec -> id. rewrite postAll_snoc. simpl.
    apply Forall_app in Hvalid as [_ Hlast].
    apply Forall_singleton in Hlast as [Hp Ha]. simpl in Hp, Ha.
    by destruct (postJobs_valid now uuid spec (postAll pre w).2 Hp Ha) as [_ ->].
Qed.

Lemma C9_router_posts_are_not_rate_limited_witness :
  let spec := mkJobSpec (Some "Acme Widget") (Some "Developers") None None in
  let posts := [(1000, "5d0c", spec); (1001, "77aa", spec)] in
  Forall (λ p, truthy (product p.2) = true ∧ truthy (audience p.2) = true) posts
  ∧ (postAll posts initial).1
    = [Ok (mkResponse 201 [] (JobCreated "5d0c"));
       Ok (mkResponse 201 [] (JobCreated "77aa"))].
Proof.
  set (spec := mkJobSpec (Some "Acme Widget") (Some "Developers") None None).
  assert (Forall (λ p : Z * string * JobSpec,
                    truthy (product p.2) = true ∧ truthy (audience p.2) = true)
            [(1000, "5d0c", spec); (1001, "77aa", spec)]) as Hvalid
    by (repeat constructor).
  split; [exact Hvalid|].
  exact (proj1 (proj2 (C9_router_posts_are_not_rate_limited
                         [(1000, "5d0c", spec); (1001, "77aa", spec)] initial)
                  Hvalid)).
Defined.

(** * Further properties of the code *)

(** ** The job index on its own *)

(** X1: [getNextTasks] answers nothing for an unknown job and for a job
    with its five stages completed, and otherwise the one canonical stage
    that is not completed while all stages before it are. *)
Theorem X1_getNextTasks_first_open_stage
        (m : gmap string JobStatus) (id : string) :
  (m !! id = None → JobStateManager.getNextTasks id m = [])
  ∧ (∀ job, m !! id = Some job →
       (JobStateManager.getNextTasks id m = []
        ↔ JobStateManager.allTasksComplete job = true)
       ∧ (∀ t, t ∈ JobStateManager.getNextTasks id m →
            JobStateManager.getNextTasks id m = [t]
            ∧ t ∈ JobStateManager.requiredTasks
            ∧ (t ∉ completedTasks job)
            ∧ (∀ p, p ∈ predecessors t → p ∈ completedTasks job))).
Proof.
  unfold JobStateManager.getNextTasks. split; [by intros ->|].
  intros job ->. unfold JobStateManager.allTasksComplete. simpl.
  repeat
    (match goal with
     | |- context [JobStateManager.includes (completedTasks job) ?t] =>
         let H := fresh "Hinc" in
         destruct (JobStateManager.includes (completedTasks job) t) eqn:H;
         [apply includes_true in H | apply includes_false in H]; simpl
     end;
     [| split; [done|]; intros t' Ht'; apply list_elem_of_singleton in Ht' as ->;
        split_and!; [done | repeat constructor | done |];
        intros p Hp; apply list_elem_of_In in Hp; simpl in Hp;
        intuition (subst; done) ]).
  split; [done|]. intros t Ht. by apply elem_of_nil in Ht.
Qed.

Lemma X1_getNextTasks_first_open_stage_witness :
  let job := mkJobStatus "J4" in_progress ["research"] 0 None None in
  jobs J4_world !! "J4" = Some job
  ∧ "product_manager" ∈ JobStateManager.getNextTasks "J4" (jobs J4_world)
  ∧ JobStateManager.getNextTasks "J4" (jobs J4_world) = ["product_manager"].
Proof.
  assert (jobs J4_world !! "J4"
          = Some (mkJobStatus "J4" in_progress ["research"] 0 None None)) as Hjob
    by (vm_compute; reflexivity).
  assert ("product_manager" ∈ JobStateManager.getNextTasks "J4" (jobs J4_world))
    as Hin by (vm_compute; apply list_elem_of_here).
  split; [exact Hjob|]. split; [exact Hin|].
  exact (proj1 (proj2 (proj2 (X1_getNextTasks_first_open_stage (jobs J4_world) "J4")
                         _ Hjob) "product_manager" Hin)).
Defined.

Section StatsFacts.

Lemma count_by_status (l : list JobStatus) :
  length l
  = (length (filter (λ job, status job = queued) l)
     + length (filter (λ job, status job = in_progress) l)
     + length (filter (λ job, status job = completed) l)
     + length (filter (λ job, status job = failed) l))%nat.
Proof.
  induction l as [|job l IH]; [done|].
  rewrite !filter_cons. destruct (status job); simpl;
    repeat case_decide; try done; simpl; lia.
Qed.

End StatsFacts.

(** X2: in the statistics of the index the total is the number of records
    and equals the sum of the four counts by status. *)
Theorem X2_getStats_total_is_sum (m : gmap string JobStatus) :
  let stats := JobStateManager.getStats m in
  JobStateManager.total stats = size m
  ∧ JobStateManager.total stats
    = (JobStateManager.n_queued stats + JobStateManager.n_in_progress stats
       + JobStateManager.n_completed stats + JobStateManager.n_failed stats)%nat.
Proof.
  simpl. split; [done|].
  unfold JobStateManager.count_status.
  rewrite <- count_by_status.
  unfold JobStateManager.getAllJobs. by rewrite length_fmap, length_map_to_list.
Qed.

(** ** What every step of the router keeps *)

Section Preservation.

Lemma preserves_ret {A} P (a : A) : preserves P (mret a).
Proof. by intros w Hw. Qed.

Lemma preserves_throw {A} P e : preserves P (@throw A e).
Proof. by intros w Hw. Qed.

Lemma preserves_bind {A B} P (m : M A) (k : A → M B) :
  preserves P m → (∀ a, preserves P (k a)) → preserves P (m ≫= k).
Proof.
  intros Hm Hk w Hw. unfold mbind, M_bind, bind.
  specialize (Hm w Hw). destruct (m w) as [[a|err] w']; simpl in *; [|done].
  by apply Hk.
Qed.

Lemma preserves_try_catch {A} P (m : M A) (h : Error → M A) :
  preserves P m → (∀ e, preserves P (h e)) → preserves P (try_catch m h).
Proof.
  intros Hm Hh w Hw. unfold try_catch.
  specialize (Hm w Hw). destruct (m w) as [[a|err] w']; simpl in *; [done|].
  by apply Hh.
Qed.

Lemma preserves_get P key : preserves P (S3Storage.get key).
Proof. intros w Hw. unfold S3Storage.get. by destruct (s3 w !! key). Qed.

(** Everything the router does is built from a few operations; a property
    that each of them keeps is kept by every run. *)
Context (P : World → Prop).
Context (Hsend : ∀ now j t p, preserves P (SQSMessaging.sendTaskMessage now j t p)).
Context (Hdone : ∀ now j, preserves P (SQSMessaging.publishDone now j)).
Context (Hdelete : ∀ handle, preserves P (SQSMessaging.deleteMessage handle)).
Context (Hcomplete : ∀ now e, preserves P (TaskRouterApp.completeTask now e)).
Context (Hadmit : ∀ now id w, P w →
            P (set_jobs (λ m, <[id := mkJobStatus id in_progress [] now None None]> m) w)).
Context (Hagents : ∀ uploads w, P w → P (agentStores uploads w)).
Context (Hreap : ∀ now, preserves P (TaskRouterApp.periodicCleanup now)).

Lemma admit_then {A} now id (k : M A) w :
  (TaskRouterApp.createJob now id;; TaskRouterApp.startJob id;; k) w
  = k (set_jobs (λ m, <[id := mkJobStatus id in_progress [] now None None]> m) w).
Proof.
  unfold TaskRouterApp.createJob, TaskRouterApp.startJob,
    JobStateManager.startJob, JobStateManager.createJob.
  unfold mbind, M_bind, bind. simpl. rewrite lookup_insert_eq. simpl.
  f_equal. unfold set_jobs. simpl. by rewrite insert_insert_eq.
Qed.

Lemma preserves_handleTaskCompletion now j t :
  preserves P (TaskRouter.handleTaskCompletion now j t).
Proof.
  unfold TaskRouter.handleTaskCompletion.
  repeat (case_match;
          [apply preserves_bind; [apply preserves_get | intros ?; apply Hsend]|]).
  case_match; [apply Hdone | apply preserves_ret].
Qed.

Lemma preserves_onCompletionEvent now e :
  preserves P (TaskRouterApp.onCompletionEvent now e).
Proof.
  unfold TaskRouterApp.onCompletionEvent.
  apply preserves_try_catch; [|intros ?; apply preserves_ret].
  case_bool_decide; [apply preserves_ret|].
  apply preserves_bind; [apply Hcomplete|]. intros [|]; [apply preserves_ret|].
  case_bool_decide; [apply preserves_handleTaskCompletion | apply preserves_ret].
Qed.

Lemma preserves_startEventConsumer messages :
  preserves P (TaskRouterApp.startEventConsumer messages).
Proof.
  unfold TaskRouterApp.startEventConsumer.
  induction messages as [|[now msg] rest IH]; [apply preserves_ret|].
  simpl. apply preserves_bind; [|done].
  unfold SQSMessaging.consumeMessage.
  apply preserves_try_catch; [|intros ?; apply preserves_ret].
  apply preserves_bind.
  { unfold SQSMessaging.JSON_parse. case_match;
      [apply preserves_throw | apply preserves_ret]. }
  intros e. apply preserves_bind; [apply preserves_onCompletionEvent|].
  intros []. apply Hdelete.
Qed.

Lemma preserves_executeJob now j spec :
  preserves P (TaskRouter.executeJob now j spec).
Proof. apply Hsend. Qed.

Lemma preserves_admission {A} now id (k : M A) :
  preserves P k →
  preserves P (TaskRouterApp.createJob now id;; TaskRouterApp.startJob id;; k).
Proof. intros Hk w Hw. rewrite admit_then. apply Hk. by apply Hadmit. Qed.

Lemma preserves_postJobs now uuid spec :
  preserves P (APIServer.postJobs now uuid spec).
Proof.
  unfold APIServer.postJobs.
  apply preserves_try_catch; [|intros ?; apply preserves_ret].
  case_match; [apply preserves_ret|].
  apply preserves_admission. apply preserves_bind; [|intros ?; apply preserves_ret].
  apply preserves_try_catch; [apply preserves_executeJob|intros ?; apply preserves_ret].
Qed.

Lemma preserves_onJobRequest now id spec :
  preserves P (TaskRouterApp.onJobRequest now id spec).
Proof.
  unfold TaskRouterApp.onJobRequest.
  apply preserves_try_catch; [|intros ?; apply preserves_ret].
  apply preserves_admission.
  apply preserves_try_catch; [apply preserves_executeJob|intros ?; apply preserves_ret].
Qed.

Lemma preserves_startJobRequestConsumer messages :
  preserves P (TaskRouterApp.startJobRequestConsumer messages).
Proof.
  unfold TaskRouterApp.startJobRequestConsumer.
  induction messages as [|[now msg] rest IH]; [apply preserves_ret|].
  simpl. apply preserves_bind; [|done].
  unfold SQSMessaging.consumeJobRequest.
  apply preserves_try_catch; [|intros ?; apply preserves_ret].
  apply preserves_bind.
  { unfold SQSMessaging.parseRequest. case_match;
      [apply preserves_throw | apply preserves_ret]. }
  intros body. case_match.
  - apply preserves_bind; [apply preserves_get|]. intros v.
    apply preserves_bind; [apply preserves_onJobRequest|]. intros []. apply Hdelete.
  - case_match; [|apply preserves_ret].
    apply preserves_bind; [apply preserves_onJobRequest|]. intros []. apply Hdelete.
Qed.

Lemma run_preserves steps w : P w → P (run steps w).
Proof.
  revert w. induction steps as [|st steps IH]; intros w Hw; [done|].
  simpl. apply IH. destruct st; simpl.
  - by apply preserves_postJobs.
  - by apply preserves_startJobRequestConsumer.
  - by apply preserves_startEventConsumer.
  - by apply Hagents.
  - by apply Hreap.
Qed.

End Preservation.

Section InvariantFacts.

Lemma allTasksComplete_addTask t job :
  JobStateManager.allTasksComplete job = true →
  JobStateManager.allTasksComplete (JobStateManager.addTask t job) = true.
Proof.
  unfold JobStateManager.allTasksComplete. rewrite !forallb_forall.
  intros Hall x Hx. apply includes_true.
  specialize (Hall x Hx). apply includes_true in Hall.
  destruct (addTask_prefix t job) as [k ->]. apply elem_of_app. by left.
Qed.

Lemma record_ok_fresh id now :
  record_ok id (mkJobStatus id in_progress [] now None None).
Proof.
  unfold record_ok. simpl. split_and!; try done.
  - apply NoDup_nil_2.
  - split; [by intros [|]|by intros []].
Qed.

(** [completeTask] keeps every record well formed. *)
Lemma completeTask_record_ok now e (m : gmap string JobStatus) :
  (∀ key job, m !! key = Some job → record_ok key job) →
  ∀ key job, (JobStateManager.completeTask now e m).1 !! key = Some job →
             record_ok key job.
Proof.
  intros Hm key job. unfold JobStateManager.completeTask.
  destruct (m !! job_id e) as [cur|] eqn:Hcur; [|by apply Hm].
  pose proof (Hm _ _ Hcur) as (Hid & Hq & Hnd & Hall & Hterm).
  destruct (ev_status e); simpl.
  - destruct (JobStateManager.allTasksComplete (JobStateManager.addTask _ cur))
      eqn:Hc; simpl.
    + destruct (decide (job_id e = key)) as [<-|Hne];
        [rewrite lookup_insert_eq | rewrite lookup_insert_ne by done; by apply Hm].
      intros [= <-]. unfold record_ok. simpl.
      assert (jobId (JobStateManager.addTask (task_type e) cur) = jobId cur) as ->
        by (unfold JobStateManager.addTask; by case_match).
      split_and!; try done.
      * by apply addTask_NoDup.
      * split; [by eauto | by left].
    + destruct (decide (job_id e = key)) as [<-|Hne];
        [rewrite lookup_insert_eq | rewrite lookup_insert_ne by done; by apply Hm].
      intros [= <-]. unfold record_ok.
      assert (jobId (JobStateManager.addTask (task_type e) cur) = jobId cur
              ∧ status (JobStateManager.addTask (task_type e) cur) = status cur
              ∧ completedAt (JobStateManager.addTask (task_type e) cur)
                = completedAt cur) as (-> & -> & ->)
        by (unfold JobStateManager.addTask; by case_match).
      split_and!; try done.
      * by apply addTask_NoDup.
      * intros Hst. apply allTasksComplete_addTask. by apply Hall.
  - destruct (decide (job_id e = key)) as [<-|Hne];
      [rewrite lookup_insert_eq | rewrite lookup_insert_ne by done; by apply Hm].
    intros [= <-]. unfold record_ok. simpl. split_and!; try done.
    split; [by eauto | by right].
  - destruct (decide (job_id e = key)) as [<-|Hne];
      [rewrite lookup_insert_eq | rewrite lookup_insert_ne by done; by apply Hm].
    intros [= <-]. unfold record_ok. simpl. split_and!; try done.
    split; [by eauto | by right].
  - by apply Hm.
Qed.

Lemma run_keeps_index_ok steps w : index_ok w → index_ok (run steps w).
Proof.
  apply run_preserves.
  - intros now j t p w' Hw'. unfold index_ok.
    by rewrite (proj1 (sendTaskMessage_frame now j t p w')).
  - intros now j w' Hw'. exact Hw'.
  - intros handle w' Hw'. exact Hw'.
  - intros now e w' Hw'. unfold index_ok, TaskRouterApp.completeTask. simpl.
    by apply completeTask_record_ok.
  - intros now id w' Hw' key job. simpl.
    destruct (decide (id = key)) as [<-|Hne].
    + rewrite lookup_insert_eq. intros [= <-]. apply record_ok_fresh.
    + rewrite lookup_insert_ne by done. apply Hw'.
  - intros uploads w' Hw'. exact Hw'.
  - intros now w' Hw' key job. simpl. unfold JobStateManager.cleanup.
    intros [Hjob _]%map_lookup_filter_Some. by apply Hw'.
Qed.

Lemma index_ok_initial : index_ok initial.
Proof. intros key job Hjob. simpl in Hjob. by apply lookup_empty_Some in Hjob. Qed.

Lemma payload_stored_insert (bucket : gmap string Json) key data m :
  payload_stored bucket m → payload_stored (<[key := data]> bucket) m.
Proof.
  unfold payload_stored. destruct (Body m) as [j t k ts|]; [|done].
  intros [-> Hin]. split; [done|].
  destruct (decide (key = j ++ "/" ++ t ++ ".json")) as [->|Hne].
  - by rewrite lookup_insert_eq.
  - by rewrite lookup_insert_ne.
Qed.

Lemma getQueueUrl_world t w : (SQSMessaging.getQueueUrl t w).2 = w.
Proof. unfold SQSMessaging.getQueueUrl. repeat case_match; reflexivity. Qed.

Lemma sendTaskMessage_sent_ok now j t p w :
  sent_ok w → sent_ok (SQSMessaging.sendTaskMessage now j t p w).2.
Proof.
  intros Hw.
  assert (sent_ok (S3Storage.storePayload j t p w).2) as Hstored.
  { unfold sent_ok. simpl. eapply Forall_impl; [exact Hw|].
    intros m. apply payload_stored_insert. }
  unfold SQSMessaging.sendTaskMessage, mbind, M_bind, bind.
  change (S3Storage.storePayload j t p w)
    with (Ok (j ++ "/" ++ t ++ ".json"), (S3Storage.storePayload j t p w).2).
  lazy beta iota.
  pose proof (getQueueUrl_world t (S3Storage.storePayload j t p w).2) as Hq.
  destruct (SQSMessaging.getQueueUrl t (S3Storage.storePayload j t p w).2)
    as [[q|err] w1]; simpl in Hq; subst w1; [|done].
  unfold sent_ok. simpl. apply Forall_app. split; [exact Hstored|].
  constructor; [|done]. unfold payload_stored. simpl.
  split; [done|]. by rewrite lookup_insert_eq.
Qed.

Lemma run_keeps_sent_ok steps w : sent_ok w → sent_ok (run steps w).
Proof.
  apply run_preserves.
  - intros now j t p w'. apply sendTaskMessage_sent_ok.
  - intros now j w' Hw'. unfold sent_ok. simpl.
    apply Forall_app. split; [exact Hw'|]. by constructor.
  - intros handle w' Hw'. exact Hw'.
  - intros now e w' Hw'. exact Hw'.
  - intros now id w' Hw'. exact Hw'.
  - intros uploads w' Hw'. unfold sent_ok. simpl.
    eapply Forall_impl; [exact Hw'|]. intros m Hm.
    induction uploads as [|[k v] rest IH]; [done|].
    simpl. by apply payload_stored_insert.
  - intros now w' Hw'. exact Hw'.
Qed.

Lemma filter_none {A} (Q : A → Prop) `{∀ x, Decision (Q x)} (l : list A) :
  Forall (λ x, ¬ Q x) l → filter Q l = [].
Proof.
  induction 1 as [|x l Hx Hl IH]; [done|].
  by rewrite filter_cons_False.
Qed.

End InvariantFacts.

(** X3: every run of the router (submissions over HTTP and over the jobs
    queue, completion events, uploads of the agents, sweeps of the reaper)
    keeps each record of the index well formed: it sits under its own id,
    is not queued, lists no stage twice, has all five stages when its
    status is completed, and has a completion time exactly when it is
    completed or failed. *)
Theorem X3_runs_keep_the_index_well_formed (steps : list Step) (w : World) :
  index_ok w → index_ok (run steps w).
Proof. apply run_keeps_index_ok. Qed.

Lemma X3_runs_keep_the_index_well_formed_witness :
  let steps := [Submit 10 "5d0c" J2_spec;
                Events [(20, SQSMessaging.mkMessage "m-1" "rh-1"
                               (SQSMessaging.EventJson
                                  (mkEvent "J2" "research" st_failure (Some "boom"))))];
                Reap 30] in
  index_ok initial ∧ index_ok (run steps initial).
Proof.
  split; [exact index_ok_initial|].
  exact (X3_runs_keep_the_index_well_formed _ initial index_ok_initial).
Defined.

(** X4: when every task message sent so far names the key
    [job/stage.json] and the bucket holds a payload under that key, the
    same is true after every run: no step of the router sends a task
    message whose payload is missing from the bucket when the step ends,
    and no step of the router or of the agents removes a key. *)
Theorem X4_sent_task_messages_have_their_payload (steps : list Step) (w : World) :
  sent_ok w → sent_ok (run steps w).
Proof. apply run_keeps_sent_ok. Qed.

Lemma X4_sent_task_messages_have_their_payload_witness :
  let steps := [Submit 10 "5d0c" J2_spec;
                AgentsStore [("J2/research-result.json", JObject [])];
                Events [(20, SQSMessaging.mkMessage "m-1" "rh-1"
                               (SQSMessaging.EventJson
                                  (mkEvent "J2" "research" st_success None)))]] in
  sent_ok initial
  ∧ sent_ok (run steps initial)
  ∧ length (sent (run steps initial)) = 2%nat.
Proof.
  assert (sent_ok initial) as H0 by constructor.
  split; [exact H0|].
  split; [exact (X4_sent_task_messages_have_their_payload _ initial H0)|].
  vm_compute. reflexivity.
Defined.

(** X5: started from the empty index, no run ever leaves a job queued:
    the record is set in progress in the same step that creates it, so
    the queued count of the statistics stays 0 and no lookup shows the
    status queued (the POST answers "queued" all the same). *)
Theorem X5_no_job_is_ever_queued (steps : list Step) :
  JobStateManager.n_queued (JobStateManager.getStats (jobs (run steps initial))) = 0%nat
  ∧ ∀ id job, APIServer.getJobRoute id (run steps initial) = (200, Some job) →
              status job ≠ queued.
Proof.
  pose proof (run_keeps_index_ok steps initial index_ok_initial) as Hok.
  split.
  - simpl. unfold JobStateManager.count_status.
    rewrite filter_none; [done|].
    unfold JobStateManager.getAllJobs. apply Forall_fmap.
    apply Forall_forall. intros [k job] Hin. simpl.
    apply elem_of_map_to_list in Hin. apply (Hok k job Hin).
  - intros id job. unfold APIServer.getJobRoute, JobStateManager.getJob.
    destruct (jobs (run steps initial) !! id) as [job'|] eqn:Hjob; [|done].
    intros [= <-]. apply (Hok id job' Hjob).
Qed.

Lemma X5_no_job_is_ever_queued_witness :
  (APIServer.postJobs 10 "5d0c" J2_spec initial).1
  = Ok (mkResponse 201 [] (JobCreated "J2"))
  ∧ JobStateManager.n_queued
      (JobStateManager.getStats (jobs (run [Submit 10 "5d0c" J2_spec] initial))) = 0%nat.
Proof.
  split; [vm_compute; reflexivity|].
  exact (proj1 (X5_no_job_is_ever_queued [Submit 10 "5d0c" J2_spec])).
Defined.

(** ** Completion events, one by one and in batches *)

Section EventFacts.

Lemma completeTask_other now e (m : gmap string JobStatus) id :
  job_id e ≠ id → (JobStateManager.completeTask now e m).1 !! id = m !! id.
Proof.
  intros Hne. unfold JobStateManager.completeTask.
  destruct (m !! job_id e); [|done].
  destruct (ev_status e); simpl; try done;
    try destruct (JobStateManager.allTasksComplete _); simpl;
    by rewrite lookup_insert_ne.
Qed.

(** The handler of completion events deletes nothing itself. *)
Lemma onCompletionEvent_deleted now e w :
  deleted (TaskRouterApp.onCompletionEvent now e w).2 = deleted w.
Proof.
  apply (preserves_onCompletionEvent (λ w', deleted w' = deleted w)); [| | |done].
  - intros n j t p w' Hw'. by rewrite (proj2 (sendTaskMessage_frame n j t p w')).
  - by intros n j w' Hw'.
  - by intros n e' w' Hw'.
Qed.

(** An event that is no success leaves the bucket and the queues alone. *)
Lemma onCompletionEvent_no_success now e w :
  ev_status e ≠ st_success →
  (TaskRouterApp.onCompletionEvent now e w).2
  = set_jobs (λ _, (JobStateManager.completeTask now e (jobs w)).1) w.
Proof.
  intros Hst. unfold TaskRouterApp.onCompletionEvent, TaskRouterApp.completeTask.
  unfold_M. case_bool_decide as Hip; simpl.
  - unfold JobStateManager.completeTask. rewrite Hip.
    destruct (jobs w !! job_id e); by destruct w.
  - destruct (JobStateManager.completeTask now e (jobs w)) as [m [|]]; simpl;
      [done|]. by case_bool_decide.
Qed.

Lemma consumeMessage_event now msg e w :
  SQSMessaging.MsgBody msg = SQSMessaging.EventJson e →
  (SQSMessaging.consumeMessage (TaskRouterApp.onCompletionEvent now) msg w).2
  = (SQSMessaging.deleteMessage (SQSMessaging.ReceiptHandle msg)
       (TaskRouterApp.onCompletionEvent now e w).2).2.
Proof.
  intros Hbody.
  pose proof (onCompletionEvent_returns now e w) as Hok.
  destruct (TaskRouterApp.onCompletionEvent now e w) as [r w1] eqn:Hrun.
  simpl in Hok. subst r.
  by rewrite (consumeMessage_handled _ msg w e w1 Hbody Hrun).
Qed.

Lemma consumeMessage_malformed handler msg raw w :
  SQSMessaging.MsgBody msg = SQSMessaging.Malformed raw →
  (SQSMessaging.consumeMessage handler msg w).2 = w.
Proof.
  intros Hbody. unfold SQSMessaging.consumeMessage, SQSMessaging.JSON_parse.
  unfold_M. by rewrite Hbody.
Qed.

End EventFacts.

(** X6: the events of a batch change only the records of the jobs they
    name: a job that no event of the batch names has the same record, or
    the same absence, after the batch. *)
Theorem X6_events_touch_only_their_job
        (messages : list (Z * SQSMessaging.Message)) (w : World) (id : string) :
  Forall (λ e, job_id e ≠ id) (events_of messages) →
  jobs (TaskRouterApp.startEventConsumer messages w).2 !! id = jobs w !! id.
Proof.
  unfold TaskRouterApp.startEventConsumer. revert w.
  induction messages as [|[now msg] rest IH]; intros w Hall; [done|].
  rewrite consumeEvents_cons.
  unfold events_of in Hall. simpl in Hall.
  destruct (SQSMessaging.MsgBody msg) as [raw|e] eqn:Hbody; simpl in Hall.
  - rewrite (consumeMessage_malformed _ msg raw) by done. by apply IH.
  - apply Forall_cons in Hall as [Hne Hrest].
    rewrite IH by done. rewrite consumeMessage_jobs, Hbody.
    by apply completeTask_other.
Qed.

Lemma X6_events_touch_only_their_job_witness :
  let messages := [(20, SQSMessaging.mkMessage "m-1" "rh-1"
                          (SQSMessaging.EventJson
                             (mkEvent "J9" "research" st_failure None)))] in
  Forall (λ e, job_id e ≠ "J4") (events_of messages)
  ∧ jobs (TaskRouterApp.startEventConsumer messages J4_world).2 !! "J4"
    = jobs J4_world !! "J4".
Proof.
  assert (Forall (λ e, job_id e ≠ "J4")
            (events_of [(20, SQSMessaging.mkMessage "m-1" "rh-1"
                               (SQSMessaging.EventJson
                                  (mkEvent "J9" "research" st_failure None)))]))
    as Hall by (repeat constructor; discriminate).
  split; [exact Hall|].
  exact (X6_events_touch_only_their_job _ J4_world "J4" Hall).
Defined.

(** X7: a failure or error event for a known job sets its status to
    failed, takes over the error text of the event and the time of
    handling as completion time, keeps the completed stages, stores and
    sends nothing, and its message is deleted. *)
Theorem X7_failure_event_fails_the_job
        (now : Z) (msg : SQSMessaging.Message) (e : CompletionEvent)
        (w : World) (job : JobStatus) :
  SQSMessaging.MsgBody msg = SQSMessaging.EventJson e →
  jobs w !! job_id e = Some job →
  ev_status e = st_failure ∨ ev_status e = st_error →
  (SQSMessaging.consumeMessage (TaskRouterApp.onCompletionEvent now) msg w).2
  = mkWorld (<[job_id e := mkJobStatus (jobId job) failed (completedTasks job)
                             (startedAt job) (Some now) (ev_error e)]> (jobs w))
            (s3 w) (sent w) (deleted w ++ [SQSMessaging.ReceiptHandle msg]).
Proof.
  intros Hbody Hjob Hst. rewrite (consumeMessage_event now msg e) by done.
  rewrite onCompletionEvent_no_success by (destruct Hst as [-> | ->]; done).
  unfold JobStateManager.completeTask. rewrite Hjob.
  by destruct Hst as [-> | ->].
Qed.

Lemma X7_failure_event_fails_the_job_witness :
  let e := mkEvent "J4" "product_manager" st_error (Some "timeout") in
  let msg := SQSMessaging.mkMessage "m-1" "rh-1" (SQSMessaging.EventJson e) in
  let job := mkJobStatus "J4" in_progress ["research"] 0 None None in
  SQSMessaging.MsgBody msg = SQSMessaging.EventJson e
  ∧ jobs J4_world !! job_id e = Some job
  ∧ (ev_status e = st_failure ∨ ev_status e = st_error)
  ∧ sent (SQSMessaging.consumeMessage (TaskRouterApp.onCompletionEvent 20) msg
            J4_world).2 = sent J4_world.
Proof.
  assert (jobs J4_world !! "J4"
          = Some (mkJobStatus "J4" in_progress ["research"] 0 None None)) as Hjob
    by (vm_compute; reflexivity).
  split; [reflexivity|]. split; [exact Hjob|]. split; [right; reflexivity|].
  rewrite (X7_failure_event_fails_the_job 20
             (SQSMessaging.mkMessage "m-1" "rh-1"
                (SQSMessaging.EventJson
                   (mkEvent "J4" "product_manager" st_error (Some "timeout"))))
             (mkEvent "J4" "product_manager" st_error (Some "timeout"))
             J4_world _ eq_refl Hjob (or_intror eq_refl)).
  reflexivity.
Defined.

(** X8: an in_progress event changes nothing at all, and neither does a
    failure or error event for a job the index does not hold; in both
    cases the only trace is the deletion of the message. *)
Theorem X8_events_without_effect
        (now : Z) (msg : SQSMessaging.Message) (e : CompletionEvent) (w : World) :
  SQSMessaging.MsgBody msg = SQSMessaging.EventJson e →
  ev_status e = st_in_progress
  ∨ (ev_status e ≠ st_success ∧ jobs w !! job_id e = None) →
  (SQSMessaging.consumeMessage (TaskRouterApp.onCompletionEvent now) msg w).2
  = mkWorld (jobs w) (s3 w) (sent w) (deleted w ++ [SQSMessaging.ReceiptHandle msg]).
Proof.
  intros Hbody Hcase. rewrite (consumeMessage_event now msg e) by done.
  rewrite onCompletionEvent_no_success
    by (destruct Hcase as [-> | [? _]]; done).
  unfold JobStateManager.completeTask.
  destruct Hcase as [Hst | [_ Hjob]].
  - rewrite Hst. by destruct (jobs w !! job_id e).
  - by rewrite Hjob.
Qed.

Lemma X8_events_without_effect_witness :
  let e := mkEvent "J4" "product_manager" st_in_progress None in
  let msg := SQSMessaging.mkMessage "m-1" "rh-1" (SQSMessaging.EventJson e) in
  SQSMessaging.MsgBody msg = SQSMessaging.EventJson e
  ∧ ev_status e = st_in_progress
  ∧ jobs (SQSMessaging.consumeMessage (TaskRouterApp.onCompletionEvent 20) msg
            J4_world).2 = jobs J4_world.
Proof.
  split; [reflexivity|]. split; [reflexivity|].
  rewrite (X8_events_without_effect 20
             (SQSMessaging.mkMessage "m-1" "rh-1"
                (SQSMessaging.EventJson
                   (mkEvent "J4" "product_manager" st_in_progress None)))
             (mkEvent "J4" "product_manager" st_in_progress None)
             J4_world eq_refl (or_introl eq_refl)).
  reflexivity.
Defined.

(** X9: when the success of a stage is reported for a known job with
    stages still open, but the result of the stage is not in the bucket
    under the key the dispatch reads, the stage is recorded as completed
    all the same, nothing is stored or sent, and the message is deleted:
    the successor stage is not dispatched and the event will not come
    back to retry it. *)
Theorem X9_missing_result_stalls_the_job
        (now : Z) (msg : SQSMessaging.Message) (e : CompletionEvent)
        (w : World) (job : JobStatus) (next : string) (q : Queue) (suffix : string) :
  SQSMessaging.MsgBody msg = SQSMessaging.EventJson e →
  jobs w !! job_id e = Some job →
  ev_status e = st_success →
  JobStateManager.allTasksComplete
    (JobStateManager.addTask (task_type e) job) = false →
  successor (task_type e) = Some (next, q, suffix) →
  s3 w !! (job_id e ++ suffix) = None →
  (SQSMessaging.consumeMessage (TaskRouterApp.onCompletionEvent now) msg w).2
  = mkWorld (<[job_id e := JobStateManager.addTask (task_type e) job]> (jobs w))
            (s3 w) (sent w) (deleted w ++ [SQSMessaging.ReceiptHandle msg]).
Proof.
  intros Hbody Hjob Hst Hopen Hsucc Hmiss.
  rewrite (consumeMessage_event now msg e) by done.
  rewrite (onCompletionEvent_success_open now e w job) by done.
  assert ((TaskRouter.handleTaskCompletion now (job_id e) (task_type e) w).2 = w)
    as ->; [|done].
  unfold successor in Hsucc. unfold TaskRouter.handleTaskCompletion.
  repeat (destruct (String.eqb (task_type e) _);
          [simplify_eq;
           unfold TaskRouter.executeProductManagerTask, TaskRouter.executeDrawerTask,
             TaskRouter.executeDesignerTask, TaskRouter.executeCodeTask,
             S3Storage.get;
           unfold mbind, M_bind, bind; by rewrite Hmiss|]).
  discriminate.
Qed.

Lemma X9_missing_result_stalls_the_job_witness :
  let e := mkEvent "J7" "research" st_success None in
  let msg := SQSMessaging.mkMessage "m-1" "rh-1" (SQSMessaging.EventJson e) in
  let job := mkJobStatus "J7" in_progress [] 0 None None in
  SQSMessaging.MsgBody msg = SQSMessaging.EventJson e
  ∧ jobs J7_world !! job_id e = Some job
  ∧ ev_status e = st_success
  ∧ JobStateManager.allTasksComplete
      (JobStateManager.addTask (task_type e) job) = false
  ∧ successor (task_type e)
    = Some ("product_manager", productManager, "/research-result.json")
  ∧ s3 J7_world !! (job_id e ++ "/research-result.json") = None
  ∧ sent (SQSMessaging.consumeMessage (TaskRouterApp.onCompletionEvent 20) msg
            J7_world).2 = [].
Proof.
  assert (jobs J7_world !! "J7"
          = Some (mkJobStatus "J7" in_progress [] 0 None None)) as Hjob
    by (vm_compute; reflexivity).
  assert (s3 J7_world !! ("J7" ++ "/research-result.json") = None) as Hmiss
    by (vm_compute; reflexivity).
  split; [reflexivity|]. split; [exact Hjob|]. split; [reflexivity|].
  split; [reflexivity|]. split; [reflexivity|]. split; [exact Hmiss|].
  rewrite (X9_missing_result_stalls_the_job 20
             (SQSMessaging.mkMessage "m-1" "rh-1"
                (SQSMessaging.EventJson (mkEvent "J7" "research" st_success None)))
             (mkEvent "J7" "research" st_success None) J7_world _
             "product_manager" productManager "/research-result.json"
             eq_refl Hjob eq_refl eq_refl eq_refl Hmiss).
  reflexivity.
Defined.

(** X10: a success event whose task type is none of the five stages is
    still appended to the completed stages of a known job, and nothing is
    dispatched for it. *)
Theorem X10_unknown_stage_is_recorded_not_dispatched
        (now : Z) (e : CompletionEvent) (w : World) (job : JobStatus) :
  jobs w !! job_id e = Some job →
  ev_status e = st_success →
  task_type e ∉ JobStateManager.requiredTasks →
  task_type e ∉ completedTasks job →
  JobStateManager.allTasksComplete job = false →
  (TaskRouterApp.onCompletionEvent now e w).2
  = set_jobs (λ _, <[job_id e := JobStateManager.push (task_type e) job]> (jobs w)) w.
Proof.
  intros Hjob Hst Hnot Hnew Hopen.
  assert (JobStateManager.allTasksComplete
            (JobStateManager.addTask (task_type e) job) = false) as Hopen'.
  { rewrite addTask_new by done.
    unfold JobStateManager.allTasksComplete in *.
    apply not_true_iff_false. intros Hall. apply not_true_iff_false in Hopen.
    apply Hopen. rewrite forallb_forall in *. intros x Hx.
    specialize (Hall x Hx). apply includes_true in Hall. apply includes_true.
    simpl in Hall. apply elem_of_app in Hall as [Hin|Hin]; [done|].
    apply list_elem_of_singleton in Hin as ->.
    apply list_elem_of_In in Hx. done. }
  rewrite (onCompletionEvent_success_open now e w job) by done.
  rewrite addTask_new by done.
  assert ((TaskRouter.handleTaskCompletion now (job_id e) (task_type e) w).2 = w)
    as ->; [|done].
  unfold TaskRouter.handleTaskCompletion.
  do 5 (let Heq := fresh "Heq" in
        destruct (String.eqb (task_type e) _) eqn:Heq;
          [apply String.eqb_eq in Heq; exfalso; apply Hnot; rewrite Heq;
           repeat constructor|clear Heq]).
  done.
Qed.

Lemma X10_unknown_stage_is_recorded_not_dispatched_witness :
  let e := mkEvent "J4" "writer" st_success None in
  let job := mkJobStatus "J4" in_progress ["research"] 0 None None in
  jobs J4_world !! job_id e = Some job
  ∧ ev_status e = st_success
  ∧ (completedTasks <$> jobs (TaskRouterApp.onCompletionEvent 20 e J4_world).2 !! "J4")
    = Some ["research"; "writer"].
Proof.
  assert (jobs J4_world !! "J4"
          = Some (mkJobStatus "J4" in_progress ["research"] 0 None None)) as Hjob
    by (vm_compute; reflexivity).
  split; [exact Hjob|]. split; [reflexivity|].
  rewrite (X10_unknown_stage_is_recorded_not_dispatched 20
             (mkEvent "J4" "writer" st_success None) J4_world _ Hjob eq_refl).
  - simpl. rewrite lookup_insert_eq. reflexivity.
  - intros Hin. apply list_elem_of_In in Hin. simpl in Hin.
    repeat (destruct Hin as [Hin|Hin]; [discriminate Hin|]). exact Hin.
  - intros Hin. apply list_elem_of_In in Hin. simpl in Hin.
    repeat (destruct Hin as [Hin|Hin]; [discriminate Hin|]). exact Hin.
  - reflexivity.
Defined.

(** X11: after a batch from the events queue the receipt handles deleted
    in addition are exactly those of the messages that parse, in the
    order of the batch; no unparseable message is deleted and no
    parseable one is kept, whatever its event does. *)
Theorem X11_batch_deletes_the_parseable_messages
        (messages : list (Z * SQSMessaging.Message)) (w : World) :
  deleted (TaskRouterApp.startEventConsumer messages w).2
  = (deleted w ++ parseable_handles messages)%list.
Proof.
  unfold TaskRouterApp.startEventConsumer. revert w.
  induction messages as [|[now msg] rest IH]; intros w.
  - simpl. by rewrite app_nil_r.
  - rewrite consumeEvents_cons, IH. unfold parseable_handles. simpl.
    destruct (SQSMessaging.MsgBody msg) as [raw|e] eqn:Hbody; simpl.
    + by rewrite (consumeMessage_malformed _ msg raw).
    + rewrite (consumeMessage_event now msg e) by done. simpl.
      rewrite onCompletionEvent_deleted. by rewrite <- app_assoc.
Qed.

(** X12: once the success of a stage was handled for a known job, the
    index reports the stage as completed, and keeps doing so through every
    later batch of events, failures included. *)
Theorem X12_a_completed_stage_stays_completed
        (now : Z) (e : CompletionEvent) (w : World)
        (later : list (Z * SQSMessaging.Message)) :
  ev_status e = st_success →
  is_Some (jobs w !! job_id e) →
  JobStateManager.isTaskCompleted (job_id e) (task_type e)
    (jobs (TaskRouterApp.startEventConsumer later
             (TaskRouterApp.onCompletionEvent now e w).2).2) = true.
Proof.
  intros Hst [job Hjob].
  set (w1 := (TaskRouterApp.onCompletionEvent now e w).2).
  assert (∃ job1, jobs w1 !! job_id e = Some job1
                  ∧ task_type e ∈ completedTasks job1) as (job1 & Hjob1 & Hin1).
  { subst w1. rewrite onCompletionEvent_jobs.
    unfold JobStateManager.completeTask. rewrite Hjob, Hst.
    assert (task_type e ∈ completedTasks
              (JobStateManager.addTask (task_type e) job)) as Hin.
    { destruct (decide (task_type e ∈ completedTasks job)) as [Hd|Hd].
      - by rewrite addTask_old.
      - rewrite addTask_new by done. simpl. apply elem_of_app. right.
        apply list_elem_of_here. }
    destruct (JobStateManager.allTasksComplete _); simpl;
      rewrite lookup_insert_eq; eexists; split; done. }
  clearbody w1. unfold TaskRouterApp.startEventConsumer.
  revert w1 job1 Hjob1 Hin1.
  induction later as [|[n msg] rest IH]; intros w1 job1 Hjob1 Hin1.
  - simpl. unfold JobStateManager.isTaskCompleted. rewrite Hjob1.
    by apply includes_true.
  - rewrite consumeEvents_cons.
    set (w2 := (SQSMessaging.consumeMessage _ msg w1).2).
    assert (∃ job2, jobs w2 !! job_id e = Some job2
                    ∧ task_type e ∈ completedTasks job2) as (job2 & Hjob2 & Hin2).
    { subst w2. rewrite consumeMessage_jobs.
      destruct (SQSMessaging.MsgBody msg) as [raw|e'].
      - by exists job1.
      - destruct (completeTask_lookup n e' (jobs w1) (job_id e) job1 Hjob1)
          as (job2 & Hj2 & [k Hk] & _).
        exists job2. split; [done|]. rewrite Hk. apply elem_of_app. by left. }
    by apply (IH w2 job2).
Qed.

Lemma X12_a_completed_stage_stays_completed_witness :
  let e := mkEvent "J4" "designer" st_success None in
  let later := [(30, SQSMessaging.mkMessage "m-2" "rh-2"
                       (SQSMessaging.EventJson
                          (mkEvent "J4" "coder" st_failure (Some "boom"))))] in
  ev_status e = st_success
  ∧ is_Some (jobs J4_world !! job_id e)
  ∧ JobStateManager.isTaskCompleted "J4" "designer"
      (jobs (TaskRouterApp.startEventConsumer later
               (TaskRouterApp.onCompletionEvent 20 e J4_world).2).2) = true.
Proof.
  assert (is_Some (jobs J4_world !! "J4")) as Hjob
    by (vm_compute; eexists; reflexivity).
  split; [reflexivity|]. split; [exact Hjob|].
  exact (X12_a_completed_stage_stays_completed 20
           (mkEvent "J4" "designer" st_success None) J4_world _ eq_refl Hjob).
Defined.

(** ** Storage, queues and dispatch *)

(** X13: for each of the five stage names [sendTaskMessage] stores the
    payload under [job/stage.json] and then sends one message naming that
    key; for any other task name the payload is stored all the same, no
    message is sent, and the call throws. *)
Theorem X13_sendTaskMessage_stores_then_sends
        (now : Z) (j t : string) (p : Json) (w : World) :
  let key := j ++ "/" ++ t ++ ".json" in
  (t ∈ JobStateManager.requiredTasks →
   ∃ q, SQSMessaging.sendTaskMessage now j t p w
        = (Ok tt, mkWorld (jobs w) (<[key := p]> (s3 w))
                          (sent w ++ [mkSent q (TaskBody j t key now)])
                          (deleted w)))
  ∧ (t ∉ JobStateManager.requiredTasks →
     SQSMessaging.sendTaskMessage now j t p w
     = (Throw (UnknownTaskType t),
        mkWorld (jobs w) (<[key := p]> (s3 w)) (sent w) (deleted w))).
Proof.
  intros key. subst key.
  unfold SQSMessaging.sendTaskMessage, S3Storage.storePayload, S3Storage.store,
    SQSMessaging.getQueueUrl, SQSMessaging.sendMessage.
  unfold_M. simpl. split.
  - intros Hin. apply list_elem_of_In in Hin. simpl in Hin.
    destruct Hin as [<-|[<-|[<-|[<-|[<-|[]]]]]]; simpl; eexists; reflexivity.
  - intros Hnot.
    do 5 (let Heq := fresh "Heq" in
          destruct (String.eqb t _) eqn:Heq;
            [apply String.eqb_eq in Heq; exfalso; apply Hnot; rewrite Heq;
             repeat constructor|clear Heq]).
    reflexivity.
Qed.

Lemma X13_sendTaskMessage_stores_then_sends_witness :
  ("writer" ∉ JobStateManager.requiredTasks)
  ∧ (SQSMessaging.sendTaskMessage 5 "J1" "writer" (JObject []) initial).1
    = Throw (UnknownTaskType "writer")
  ∧ s3 (SQSMessaging.sendTaskMessage 5 "J1" "writer" (JObject []) initial).2
       !! "J1/writer.json" = Some (JObject []).
Proof.
  assert ("writer" ∉ JobStateManager.requiredTasks) as Hnot.
  { intros Hin. apply list_elem_of_In in Hin. simpl in Hin.
    repeat (destruct Hin as [Hin|Hin]; [discriminate Hin|]). exact Hin. }
  split; [exact Hnot|].
  rewrite (proj2 (X13_sendTaskMessage_stores_then_sends 5 "J1" "writer"
                    (JObject []) initial) Hnot).
  split; [reflexivity|]. vm_compute. reflexivity.
Defined.

(** X15: the key [storeResult] builds from a stage name is the key the
    dispatch of the successor reads for research, drawer and designer, but
    not for product_manager: its result is stored with an underscore and
    read with a hyphen, so after [storeResult] alone the dispatch of the
    drawer throws for the missing key. *)
Theorem X15_result_key_of_product_manager_is_not_read
        (now : Z) (j : string) (r : Json) (w : World) :
  (∀ t, t ∈ ["research"; "drawer"; "designer"] →
     (TaskRouter.handleTaskCompletion now j t (S3Storage.storeResult j t r w).2).1
     = Ok tt)
  ∧ (s3 w !! (j ++ "/product-manager-result.json") = None →
     (TaskRouter.handleTaskCompletion now j "product_manager"
        (S3Storage.storeResult j "product_manager" r w).2).1
     = Throw (NoSuchKey (j ++ "/product-manager-result.json"))).
Proof.
  split.
  - intros t Hin. apply list_elem_of_In in Hin. simpl in Hin.
    destruct Hin as [<-|[<-|[<-|[]]]];
      unfold TaskRouter.handleTaskCompletion; simpl;
      unfold TaskRouter.executeProductManagerTask, TaskRouter.executeDesignerTask,
        TaskRouter.executeCodeTask, S3Storage.get, S3Storage.storeResult,
        S3Storage.store;
      unfold mbind, M_bind, bind; simpl;
      rewrite lookup_insert_eq; reflexivity.
  - intros Hmiss. unfold TaskRouter.handleTaskCompletion. simpl.
    unfold TaskRouter.executeDrawerTask, S3Storage.get, S3Storage.storeResult,
      S3Storage.store.
    unfold mbind, M_bind, bind. simpl.
    rewrite lookup_insert_ne, Hmiss; [done|].
    intros Heq. apply (inj (String.app j)) in Heq. discriminate Heq.
Qed.

Lemma X15_result_key_of_product_manager_is_not_read_witness :
  s3 initial !! ("J1" ++ "/product-manager-result.json") = None
  ∧ (TaskRouter.handleTaskCompletion 5 "J1" "product_manager"
       (S3Storage.storeResult "J1" "product_manager" (JObject []) initial).2).1
    = Throw (NoSuchKey "J1/product-manager-result.json").
Proof.
  split; [reflexivity|].
  exact (proj2 (X15_result_key_of_product_manager_is_not_read 5 "J1" (JObject [])
                  initial) eq_refl).
Defined.

(** ** The routes of the API *)

Section RouteFacts.

Lemma postJobs_invalid now uuid spec w :
  truthy (product spec) = false ∨ truthy (audience spec) = false →
  APIServer.postJobs now uuid spec w
  = (Ok (mkResponse 400 [] (ErrorBody "Missing required fields")), w).
Proof.
  intros Hbad. unfold APIServer.postJobs. unfold_M.
  destruct Hbad as [-> | ->]; [done|]. by rewrite orb_true_r.
Qed.

Lemma executeJob_world now id spec w :
  ∃ p, (TaskRouter.executeJob now id spec w).2
       = mkWorld (jobs w) (<[id ++ "/" ++ "research" ++ ".json" := p]> (s3 w))
                 (sent w ++ [taskMessage id "research" research now]) (deleted w).
Proof. eexists. reflexivity. Qed.

End RouteFacts.

(** X16: a POST lacking a product or an audience, or carrying an empty
    one, is answered 400 and changes nothing: no record, no payload, no
    message. *)
Theorem X16_invalid_post_changes_nothing
        (now : Z) (uuid : string) (jobSpec : JobSpec) (w : World) :
  truthy (product jobSpec) = false ∨ truthy (audience jobSpec) = false →
  (∃ body, (APIServer.postJobs now uuid jobSpec w).1 = Ok (mkResponse 400 [] body))
  ∧ (APIServer.postJobs now uuid jobSpec w).2 = w.
Proof.
  intros Hbad. rewrite postJobs_invalid by done. split; [by eexists|done].
Qed.

Lemma X16_invalid_post_changes_nothing_witness :
  let spec := mkJobSpec (Some "") (Some "Developers") None (Some "J1") in
  (truthy (product spec) = false ∨ truthy (audience spec) = false)
  ∧ (APIServer.postJobs 10 "5d0c" spec J4_world).2 = J4_world.
Proof.
  split; [left; reflexivity|].
  exact (proj2 (X16_invalid_post_changes_nothing 10 "5d0c"
                  (mkJobSpec (Some "") (Some "Developers") None (Some "J1"))
                  J4_world (or_introl eq_refl))).
Defined.

(** X17: a valid POST dispatches research before it answers: one task
    message for research is added to the research queue, its payload is in
    the bucket under [id/research.json], and a lookup of the id right
    after answers 200 with the record in progress. *)
Theorem X17_valid_post_dispatches_research
        (now : Z) (uuid : string) (jobSpec : JobSpec) (w : World) :
  truthy (product jobSpec) = true →
  truthy (audience jobSpec) = true →
  let id := admitted_id uuid jobSpec in
  let w' := (APIServer.postJobs now uuid jobSpec w).2 in
  sent w' = (sent w ++ [taskMessage id "research" research now])%list
  ∧ is_Some (s3 w' !! (id ++ "/research.json"))
  ∧ (∀ key, is_Some (s3 w !! key) → is_Some (s3 w' !! key))
  ∧ APIServer.getJobRoute id w'
    = (200, Some (mkJobStatus id in_progress [] now None None)).
Proof.
  intros Hp Ha id w'. subst w'. rewrite postJobs_world by done. fold id.
  destruct (executeJob_world now id jobSpec w) as [p ->]. simpl.
  split_and!.
  - done.
  - change (id ++ "/" ++ "research" ++ ".json") with (id ++ "/research.json").
    by rewrite lookup_insert_eq.
  - intros key Hkey.
    destruct (decide (id ++ "/" ++ "research" ++ ".json" = key)) as [<-|Hne].
    + by rewrite lookup_insert_eq.
    + by rewrite lookup_insert_ne.
  - unfold APIServer.getJobRoute, JobStateManager.getJob. simpl.
    by rewrite lookup_insert_eq.
Qed.

Lemma X17_valid_post_dispatches_research_witness :
  truthy (product J2_spec) = true
  ∧ truthy (audience J2_spec) = true
  ∧ sent (APIServer.postJobs 10 "5d0c" J2_spec initial).2
    = [taskMessage "J2" "research" research 10].
Proof.
  split; [reflexivity|]. split; [reflexivity|].
  exact (proj1 (X17_valid_post_dispatches_research 10 "5d0c" J2_spec initial
                  eq_refl eq_refl)).
Defined.

(** X18: in every run from the empty index the tasks endpoint lists one
    task per record of the index, and the task ids are the ids the records
    are filed under, so no id is listed twice and the list is as long as
    the total of the statistics. *)
Theorem X18_tasks_list_the_index (steps : list Step) :
  let w := run steps initial in
  APIServer.task_id <$> APIServer.getTasks w = (map_to_list (jobs w)).*1
  ∧ NoDup (APIServer.task_id <$> APIServer.getTasks w)
  ∧ length (APIServer.getTasks w)
    = JobStateManager.total (JobStateManager.getStats (jobs w)).
Proof.
  intros w.
  pose proof (run_keeps_index_ok steps initial index_ok_initial) as Hok.
  fold w in Hok.
  assert (APIServer.task_id <$> APIServer.getTasks w = (map_to_list (jobs w)).*1)
    as Hids.
  { unfold APIServer.getTasks, JobStateManager.getAllJobs.
    rewrite <- !list_fmap_compose. apply list_fmap_ext.
    intros i [k job] Hin. simpl.
    apply list_elem_of_lookup_2, elem_of_map_to_list in Hin.
    apply (Hok k job Hin). }
  split_and!.
  - done.
  - rewrite Hids. apply NoDup_fst_map_to_list.
  - unfold APIServer.getTasks, JobStateManager.getAllJobs. simpl.
    by rewrite !length_fmap, length_map_to_list.
Qed.

(** ** Job requests from the queue *)

Section JobRequestFacts.

Lemma executeJob_set_jobs now j spec f w :
  TaskRouter.executeJob now j spec (set_jobs f w)
  = ((TaskRouter.executeJob now j spec w).1,
     set_jobs f (TaskRouter.executeJob now j spec w).2).
Proof. apply sendTaskMessage_set_jobs. Qed.

(** The handler of job requests: the fresh record, and research
    dispatched; it never throws. *)
Lemma onJobRequest_world now id spec w :
  TaskRouterApp.onJobRequest now id spec w
  = (Ok tt,
     set_jobs (λ m, <[id := mkJobStatus id in_progress [] now None None]> m)
       (TaskRouter.executeJob now id (TaskRouterApp.specOfRequest spec) w).2).
Proof.
  unfold TaskRouterApp.onJobRequest. unfold try_catch at 1.
  rewrite admit_then. unfold try_catch. rewrite executeJob_set_jobs.
  by destruct (TaskRouter.executeJob now id _ w) as [[[]|err] w'].
Qed.

End JobRequestFacts.

(** X19: a job request that cannot be used stays on the queue and leaves
    no trace: a body that does not parse, a body of neither format, and a
    reference to a payload that is not in the bucket all end without the
    handler being called and without the message being deleted. *)
Theorem X19_unusable_job_request_is_kept
        (handler : string → SQSMessaging.RequestSpec → M unit)
        (msg : SQSMessaging.RequestMessage) (w : World) :
  (∀ raw, SQSMessaging.RqBody msg = SQSMessaging.MalformedRequest raw →
          SQSMessaging.consumeJobRequest handler msg w = (Ok tt, w))
  ∧ (∀ b, SQSMessaging.RqBody msg = SQSMessaging.RequestJson b →
          by_reference b = false → inline b = false →
          SQSMessaging.consumeJobRequest handler msg w = (Ok tt, w))
  ∧ (∀ b, SQSMessaging.RqBody msg = SQSMessaging.RequestJson b →
          by_reference b = true →
          s3 w !! default "" (SQSMessaging.rq_payload_key b) = None →
          SQSMessaging.consumeJobRequest handler msg w = (Ok tt, w)).
Proof.
  unfold SQSMessaging.consumeJobRequest, SQSMessaging.parseRequest, by_reference,
    inline.
  split_and!.
  - intros raw ->. reflexivity.
  - intros b -> Href Hinl. unfold_M. simpl. by rewrite Href, Hinl.
  - intros b -> Href Hmiss. unfold_M. simpl. rewrite Href.
    unfold S3Storage.get. by rewrite Hmiss.
Qed.

Lemma X19_unusable_job_request_is_kept_witness :
  let b := SQSMessaging.mkJobRequestBody (Some "J1") (Some "start_job")
             (Some "J1/research.json") None None None in
  let msg := SQSMessaging.mkRequestMessage "m-1" "rh-1" (SQSMessaging.RequestJson b) in
  SQSMessaging.RqBody msg = SQSMessaging.RequestJson b
  ∧ by_reference b = true
  ∧ s3 initial !! default "" (SQSMessaging.rq_payload_key b) = None
  ∧ SQSMessaging.consumeJobRequest (TaskRouterApp.onJobRequest 10) msg initial
    = (Ok tt, initial).
Proof.
  split; [reflexivity|]. split; [reflexivity|]. split; [reflexivity|].
  exact (proj2 (proj2 (X19_unusable_job_request_is_kept
                         (TaskRouterApp.onJobRequest 10)
                         (SQSMessaging.mkRequestMessage "m-1" "rh-1"
                            (SQSMessaging.RequestJson
                               (SQSMessaging.mkJobRequestBody (Some "J1")
                                  (Some "start_job") (Some "J1/research.json")
                                  None None None)))
                         initial)) _ eq_refl eq_refl eq_refl).
Defined.

(** X20: a job request with an id and a product or an audience in its
    body is admitted as it is: the record is created in progress under
    the id of the message, research is dispatched and the message is
    deleted. The brief is not validated on this path: a request without
    audience is admitted, where the POST route answers 400 to the same
    brief. *)
Theorem X20_inline_job_request_is_admitted_unvalidated
        (now : Z) (msg : SQSMessaging.RequestMessage)
        (b : SQSMessaging.JobRequestBody) (w : World) :
  SQSMessaging.RqBody msg = SQSMessaging.RequestJson b →
  by_reference b = false →
  inline b = true →
  let id := default "" (SQSMessaging.rq_job_id b) in
  let w' := (SQSMessaging.consumeJobRequest (TaskRouterApp.onJobRequest now) msg w).2 in
  jobs w' = <[id := mkJobStatus id in_progress [] now None None]> (jobs w)
  ∧ sent w' = (sent w ++ [taskMessage id "research" research now])%list
  ∧ deleted w' = (deleted w ++ [SQSMessaging.RqReceiptHandle msg])%list
  ∧ (SQSMessaging.present (SQSMessaging.rq_audience b) = false →
     ∀ uuid w0,
       (APIServer.postJobs now uuid
          (TaskRouterApp.specOfRequest (SQSMessaging.Inline b)) w0).1
       = Ok (mkResponse 400 [] (ErrorBody "Missing required fields"))).
Proof.
  intros Hbody Href Hinl id w'. subst w'.
  unfold SQSMessaging.consumeJobRequest, SQSMessaging.parseRequest.
  rewrite Hbody. unfold try_catch, mbind, M_bind, bind. simpl.
  unfold by_reference, inline in Href, Hinl. rewrite Href, Hinl.
  rewrite onJobRequest_world. fold id. simpl. split_and!; try done.
  intros Haud uuid w0. rewrite postJobs_invalid; [done|]. right. exact Haud.
Qed.

Lemma X20_inline_job_request_is_admitted_unvalidated_witness :
  let b := SQSMessaging.mkJobRequestBody (Some "J1") None None (Some "Acme Widget")
             None None in
  let msg := SQSMessaging.mkRequestMessage "m-1" "rh-1" (SQSMessaging.RequestJson b) in
  SQSMessaging.RqBody msg = SQSMessaging.RequestJson b
  ∧ by_reference b = false
  ∧ inline b = true
  ∧ jobs (SQSMessaging.consumeJobRequest (TaskRouterApp.onJobRequest 10) msg
            initial).2
    = <["J1" := mkJobStatus "J1" in_progress [] 10 None None]> ∅.
Proof.
  split; [reflexivity|]. split; [reflexivity|]. split; [reflexivity|].
  exact (proj1 (X20_inline_job_request_is_admitted_unvalidated 10
                  (SQSMessaging.mkRequestMessage "m-1" "rh-1"
                     (SQSMessaging.RequestJson
                        (SQSMessaging.mkJobRequestBody (Some "J1") None None
                           (Some "Acme Widget") None None)))
                  _ initial eq_refl eq_refl eq_refl)).
Defined.

(** ** The web route and its limiter *)

Section LimiterFacts.
Import WebJobs.

Lemma cleanupRateLimitStore_lookup t ip (store : gmap string Z) :
  cleanupRateLimitStore t store !! ip = None
  ∨ cleanupRateLimitStore t store !! ip = store !! ip.
Proof.
  unfold cleanupRateLimitStore.
  destruct (filter _ store !! ip) as [ts|] eqn:Hf; [|by left].
  right. by apply map_lookup_filter_Some in Hf as [-> _].
Qed.

(** A call that gets past the limiter is not answered 429. *)
Lemma POST_passed_code env rq ww :
  (checkRateLimit (now env) (getClientIP rq) (rateLimitStore ww)).1 = true →
  statusCode (POST env rq ww).1 ≠ 429.
Proof.
  intros Hc. unfold POST. rewrite Hc. simpl.
  repeat case_match; simpl; discriminate.
Qed.

(** Calls from other addresses leave the record of an address as it is,
    or sweep it away. *)
Lemma POST_other_address env rq ww ip :
  getClientIP rq ≠ ip →
  rateLimitStore (POST env rq ww).2 !! ip = None
  ∨ rateLimitStore (POST env rq ww).2 !! ip = rateLimitStore ww !! ip.
Proof.
  intros Hne. rewrite POST_store. simpl.
  destruct (checkRateLimit (now env) (getClientIP rq) (rateLimitStore ww)).1 eqn:Hc.
  - rewrite checkRateLimit_true by done.
    destruct (random_hit env).
    + destruct (cleanupRateLimitStore_lookup (now env) ip
                  (<[getClientIP rq := now env]> (rateLimitStore ww))) as [H|H];
        [by left|right]. by rewrite H, lookup_insert_ne.
    + right. by rewrite lookup_insert_ne.
  - right. by rewrite checkRateLimit_false.
Qed.

Lemma serve_other_addresses reqs ww ip :
  Forall (λ er, getClientIP er.2 ≠ ip) reqs →
  rateLimitStore (serve reqs ww).2 !! ip = None
  ∨ rateLimitStore (serve reqs ww).2 !! ip = rateLimitStore ww !! ip.
Proof.
  intros Hall. revert ww.
  induction Hall as [|[env rq] rest Hne Hrest IH]; intros ww; [by right|].
  simpl. destruct (IH (POST env rq ww).2) as [H|H]; [by left|].
  rewrite H. by apply POST_other_address.
Qed.

End LimiterFacts.

(** X14: the limit is in the web route in front of the router. Once a
    POST from an address got past its limiter, a POST from the
    same address less than 60 seconds later is answered 429 with the header
    Retry-After: 60 and changes nothing, neither the limiter nor the job
    index of the router, whatever requests from whatever addresses were
    served in between (none of them later than the second POST); so of the
    POSTs of one address within 60 seconds at most one gets through. The
    clock reading 0 is excluded: the limiter takes a stored 0 for no
    reading at all. *)
Theorem X14_web_post_within_window_is_rejected
        (ww : WebWorld) (e1 : WebJobs.Env) (r1 : Request)
        (between : list (WebJobs.Env * Request))
        (e2 : WebJobs.Env) (r2 : Request) :
  statusCode (WebJobs.POST e1 r1 ww).1 ≠ 429 →
  WebJobs.now e1 ≠ 0 →
  Forall (λ er, WebJobs.now er.1 ≤ WebJobs.now e2) between →
  WebJobs.now e2 - WebJobs.now e1 < 60 * 1000 →
  WebJobs.getClientIP r2 = WebJobs.getClientIP r1 →
  let ww' := (WebJobs.serve between (WebJobs.POST e1 r1 ww).2).2 in
  let r := WebJobs.POST e2 r2 ww' in
  statusCode r.1 = 429
  ∧ ("Retry-After", "60") ∈ headers r.1
  ∧ r.2 = ww'
  ∧ jobs (router r.2) = jobs (router ww').
Proof.
  intros Hacc Hnz Hall Hlt Hip ww' r.
  assert (rateLimitStore ww' !! WebJobs.getClientIP r2 = Some (WebJobs.now e1))
    as Hrec.
  { subst ww'. rewrite Hip.
    apply serve_keeps_record with (bound := WebJobs.now e2); [|done|done|done].
    by apply POST_accepted_records. }
  assert (r = (WebJobs.rateLimited, ww')) as ->.
  { subst r. apply POST_refused.
    by rewrite (checkRateLimit_within _ _ _ (WebJobs.now e1)). }
  simpl. split_and!; [done| |done|done].
  apply list_elem_of_here.
Qed.

Lemma X14_web_post_within_window_is_rejected_witness :
  let ww := mkWebWorld ∅ (mkWorld ∅ ∅ [] []) in
  let env t id := WebJobs.mkEnv t false id true t "0000" in
  let spec := mkJobSpec (Some "Acme Widget") (Some "Developers") None None in
  let r1 := mkRequest (Some "10.0.0.1, 172.16.0.9") None (Some spec) in
  let other := mkRequest (Some "10.0.0.2") None (Some spec) in
  let r2 := mkRequest (Some " 10.0.0.1") None (Some spec) in
  let between := [(env 1010 "b2", other)] in
  let ww' := (WebJobs.serve between (WebJobs.POST (env 1000 "a1") r1 ww).2).2 in
  statusCode (WebJobs.POST (env 1000 "a1") r1 ww).1 ≠ 429
  ∧ WebJobs.now (env 1000 "a1") ≠ 0
  ∧ Forall (λ er, WebJobs.now er.1 ≤ WebJobs.now (env 31000 "c3")) between
  ∧ WebJobs.now (env 31000 "c3") - WebJobs.now (env 1000 "a1") < 60 * 1000
  ∧ WebJobs.getClientIP r2 = WebJobs.getClientIP r1
  ∧ statusCode (WebJobs.POST (env 31000 "c3") r2 ww').1 = 429.
Proof.
  set (ww := mkWebWorld ∅ (mkWorld ∅ ∅ [] [])).
  set (env := λ t id, WebJobs.mkEnv t false id true t "0000").
  set (spec := mkJobSpec (Some "Acme Widget") (Some "Developers") None None).
  set (r1 := mkRequest (Some "10.0.0.1, 172.16.0.9") None (Some spec)).
  set (other := mkRequest (Some "10.0.0.2") None (Some spec)).
  set (r2 := mkRequest (Some " 10.0.0.1") None (Some spec)).
  assert (statusCode (WebJobs.POST (env 1000 "a1") r1 ww).1 ≠ 429) as H1
    by (vm_compute; discriminate).
  assert (WebJobs.now (env 1000 "a1") ≠ 0) as H2 by (simpl; lia).
  assert (Forall (λ er, WebJobs.now er.1 ≤ WebJobs.now (env 31000 "c3"))
            [(env 1010 "b2", other)]) as H3
    by (repeat constructor; simpl; lia).
  assert (WebJobs.now (env 31000 "c3") - WebJobs.now (env 1000 "a1") < 60 * 1000)
    as H4 by (simpl; lia).
  assert (WebJobs.getClientIP r2 = WebJobs.getClientIP r1) as H5
    by (vm_compute; reflexivity).
  split; [exact H1|]. split; [exact H2|]. split; [exact H3|].
  split; [exact H4|]. split; [exact H5|].
  exact (proj1 (X14_web_post_within_window_is_rejected ww (env 1000 "a1") r1
                  [(env 1010 "b2", other)] (env 31000 "c3") r2 H1 H2 H3 H4 H5)).
Defined.

(** X21: the limit lifts after 60 seconds: when a POST of an address got
    past the limiter and no other request of that address came in since,
    a POST of the address 60 seconds later or more is not answered 429,
    whatever the other addresses did in between. *)
Theorem X21_limit_lifts_after_the_window
        (ww : WebWorld) (e1 : WebJobs.Env) (r1 : Request)
        (between : list (WebJobs.Env * Request))
        (e2 : WebJobs.Env) (r2 : Request) :
  statusCode (WebJobs.POST e1 r1 ww).1 ≠ 429 →
  Forall (λ er, WebJobs.getClientIP er.2 ≠ WebJobs.getClientIP r1) between →
  WebJobs.getClientIP r2 = WebJobs.getClientIP r1 →
  60 * 1000 ≤ WebJobs.now e2 - WebJobs.now e1 →
  statusCode (WebJobs.POST e2 r2
                (WebJobs.serve between (WebJobs.POST e1 r1 ww).2).2).1 ≠ 429.
Proof.
  intros Hacc Hall Hip Hge. apply POST_passed_code. rewrite Hip.
  unfold WebJobs.checkRateLimit.
  destruct (serve_other_addresses between (WebJobs.POST e1 r1 ww).2
              (WebJobs.getClientIP r1) Hall) as [-> | ->]; [done|].
  rewrite (POST_accepted_records e1 r1 ww Hacc).
  destruct (Z.eqb_spec (WebJobs.now e1) 0); [done|].
  destruct (Z.leb_spec WebJobs.RATE_LIMIT_WINDOW (WebJobs.now e2 - WebJobs.now e1));
    [done|]. unfold WebJobs.RATE_LIMIT_WINDOW in *. lia.
Qed.

Lemma X21_limit_lifts_after_the_window_witness :
  let ww := mkWebWorld ∅ initial in
  let env t id := WebJobs.mkEnv t true id true t "0000" in
  let spec := mkJobSpec (Some "Acme Widget") (Some "Developers") None None in
  let r1 := mkRequest (Some "10.0.0.1") None (Some spec) in
  let other := mkRequest None (Some "10.0.0.2") (Some spec) in
  statusCode (WebJobs.POST (env 1000 "a1") r1 ww).1 ≠ 429
  ∧ Forall (λ er, WebJobs.getClientIP er.2 ≠ WebJobs.getClientIP r1)
      [(env 30000 "b2", other)]
  ∧ 60 * 1000 ≤ WebJobs.now (env 61000 "c3") - WebJobs.now (env 1000 "a1")
  ∧ statusCode (WebJobs.POST (env 61000 "c3") r1
                  (WebJobs.serve [(env 30000 "b2", other)]
                     (WebJobs.POST (env 1000 "a1") r1 ww).2).2).1 ≠ 429.
Proof.
  set (ww := mkWebWorld ∅ initial).
  set (env := λ t id, WebJobs.mkEnv t true id true t "0000").
  set (spec := mkJobSpec (Some "Acme Widget") (Some "Developers") None None).
  set (r1 := mkRequest (Some "10.0.0.1") None (Some spec)).
  set (other := mkRequest None (Some "10.0.0.2") (Some spec)).
  assert (statusCode (WebJobs.POST (env 1000 "a1") r1 ww).1 ≠ 429) as H1
    by (vm_compute; discriminate).
  assert (Forall (λ er, WebJobs.getClientIP er.2 ≠ WebJobs.getClientIP r1)
            [(env 30000 "b2", other)]) as H2
    by (repeat constructor; vm_compute; discriminate).
  assert (60 * 1000 ≤ WebJobs.now (env 61000 "c3") - WebJobs.now (env 1000 "a1"))
    as H3 by (simpl; lia).
  split; [exact H1|]. split; [exact H2|]. split; [exact H3|].
  exact (X21_limit_lifts_after_the_window ww (env 1000 "a1") r1
           [(env 30000 "b2", other)] (env 61000 "c3") r1 H1 H2 eq_refl H3).
Defined.

(** X22: sweeping the limiter's store never changes an answer of the
    limiter: at the time of the sweep or later, every address is accepted
    or refused after the sweep exactly as it would have been without. *)
Theorem X22_sweep_keeps_the_answers
        (swept t : Z) (ip : string) (store : gmap string Z) :
  swept ≤ t →
  (WebJobs.checkRateLimit t ip (WebJobs.cleanupRateLimitStore swept store)).1
  = (WebJobs.checkRateLimit t ip store).1.
Proof.
  intros Hle. unfold WebJobs.checkRateLimit, WebJobs.cleanupRateLimitStore.
  destruct (store !! ip) as [ts|] eqn:Hip.
  - destruct (decide (WebJobs.RATE_LIMIT_WINDOW < swept - ts)) as [Hold|Hnew].
    + assert (filter (λ kv, ¬ WebJobs.RATE_LIMIT_WINDOW < swept - kv.2) store !! ip
              = None) as ->.
      { apply map_lookup_filter_None. right. intros x Hx. simpl.
        assert (x = ts) as -> by congruence. lia. }
      destruct (Z.eqb_spec ts 0); [done|].
      destruct (Z.leb_spec WebJobs.RATE_LIMIT_WINDOW (t - ts)); [done|lia].
    + assert (filter (λ kv, ¬ WebJobs.RATE_LIMIT_WINDOW < swept - kv.2) store !! ip
              = Some ts) as ->; [|by repeat case_match].
      apply map_lookup_filter_Some. split; [done|]. simpl. lia.
  - assert (filter (λ kv, ¬ WebJobs.RATE_LIMIT_WINDOW < swept - kv.2) store !! ip
            = None) as ->; [|done].
    apply map_lookup_filter_None. by left.
Qed.

Lemma X22_sweep_keeps_the_answers_witness :
  let store : gmap string Z := <["10.0.0.1" := 1000]> ∅ in
  100000 ≤ 100001
  ∧ (WebJobs.checkRateLimit 100001 "10.0.0.1"
       (WebJobs.cleanupRateLimitStore 100000 store)).1
    = (WebJobs.checkRateLimit 100001 "10.0.0.1" store).1.
Proof.
  assert (100000 ≤ 100001) as Hle by lia.
  split; [exact Hle|].
  exact (X22_sweep_keeps_the_answers 100000 100001 "10.0.0.1" _ Hle).
Defined.

(** X23: a POST that gets past the limiter but has no readable body, or
    lacks a product or an audience, is answered 400 and never reaches the
    router, yet it uses up the slot of its address: its time is recorded
    in the limiter's store. *)
Theorem X23_invalid_web_post_uses_the_slot
        (env : WebJobs.Env) (rq : Request) (ww : WebWorld) :
  (WebJobs.checkRateLimit (WebJobs.now env) (WebJobs.getClientIP rq)
     (rateLimitStore ww)).1 = true →
  (json rq = None
   ∨ ∃ spec, json rq = Some spec
             ∧ (truthy (product spec) = false ∨ truthy (audience spec) = false)) →
  statusCode (WebJobs.POST env rq ww).1 = 400
  ∧ router (WebJobs.POST env rq ww).2 = router ww
  ∧ rateLimitStore (WebJobs.POST env rq ww).2 !! WebJobs.getClientIP rq
    = Some (WebJobs.now env).
Proof.
  intros Hc Hbad.
  assert (rateLimitStore (WebJobs.POST env rq ww).2 !! WebJobs.getClientIP rq
          = Some (WebJobs.now env)) as Hrec.
  { apply POST_accepted_records. by apply POST_passed_code. }
  split_and!; [| |exact Hrec]; unfold WebJobs.POST; rewrite Hc; simpl;
    destruct Hbad as [-> | (spec & -> & [Hb|Hb])]; try done;
    rewrite Hb; simpl; rewrite ?orb_true_r; done.
Qed.

Lemma X23_invalid_web_post_uses_the_slot_witness :
  let ww := mkWebWorld ∅ initial in
  let env := WebJobs.mkEnv 1000 false "a1" true 1000 "0000" in
  let rq := mkRequest (Some "10.0.0.1") None None in
  (WebJobs.checkRateLimit (WebJobs.now env) (WebJobs.getClientIP rq)
     (rateLimitStore ww)).1 = true
  ∧ json rq = None
  ∧ statusCode (WebJobs.POST env rq ww).1 = 400.
Proof.
  split; [vm_compute; reflexivity|]. split; [reflexivity|].
  exact (proj1 (X23_invalid_web_post_uses_the_slot
                  (WebJobs.mkEnv 1000 false "a1" true 1000 "0000")
                  (mkRequest (Some "10.0.0.1") None None) (mkWebWorld ∅ initial)
                  eq_refl (or_introl eq_refl))).
Defined.

(** X24: a valid POST that gets past the limiter is admitted at the router
    under the id minted by the web route, whatever job id the client sent:
    the answer is 201 with the minted id, the router's index holds the
    record in progress under it, and the bucket holds under
    [id/research.json] the research payload built by the router, which
    replaced the copy of the brief the web route had stored there. *)
Theorem X24_web_post_admits_under_minted_id
        (env : WebJobs.Env) (rq : Request) (spec : JobSpec) (ww : WebWorld) :
  (WebJobs.checkRateLimit (WebJobs.now env) (WebJobs.getClientIP rq)
     (rateLimitStore ww)).1 = true →
  json rq = Some spec →
  truthy (product spec) = true →
  truthy (audience spec) = true →
  WebJobs.uuid env ≠ "" →
  let id := WebJobs.uuid env in
  let r := WebJobs.POST env rq ww in
  r.1 = mkResponse 201 [] (JobCreated id)
  ∧ jobs (router r.2) !! id
    = Some (mkJobStatus id in_progress [] (WebJobs.routerNow env) None None)
  ∧ (∃ fields, s3 (router r.2) !! (id ++ "/research.json") = Some (JObject fields)
               ∧ ("task", JString "research") ∈ fields)
  ∧ sent (router r.2)
    = (sent (router ww)
       ++ [taskMessage id "research" research (WebJobs.routerNow env)])%list.
Proof.
  intros Hc Hjson Hp Ha Hid id r. subst r.
  unfold WebJobs.POST. rewrite Hc, Hjson. simpl. rewrite Hp, Ha. simpl.
  fold id.
  set (spec' := mkJobSpec (product spec) (audience spec) (tone spec) (Some id)).
  assert (admitted_id (WebJobs.routerUuid env) spec' = id) as Hadm.
  { unfold admitted_id. simpl. destruct (String.eqb_spec id ""); [done|].
    reflexivity. }
  assert (∀ w0, WebJobs.createJobInTaskRouter (WebJobs.routerNow env)
                  (WebJobs.routerUuid env) id spec w0
                = (Ok tt, (APIServer.postJobs (WebJobs.routerNow env)
                             (WebJobs.routerUuid env) spec' w0).2)) as Hcreate.
  { intros w0. unfold WebJobs.createJobInTaskRouter. fold spec'.
    unfold mbind, M_bind, bind.
    destruct (postJobs_valid (WebJobs.routerNow env) (WebJobs.routerUuid env)
                spec' w0 Hp Ha) as [Hres _].
    destruct (APIServer.postJobs _ _ spec' w0) as [res w1]. simpl in *.
    rewrite Hres. reflexivity. }
  unfold mbind, M_bind, bind.
  assert (∀ w0, (APIServer.postJobs (WebJobs.routerNow env)
                   (WebJobs.routerUuid env) spec' w0).2
                = mkWorld
                    (<[id := mkJobStatus id in_progress [] (WebJobs.routerNow env)
                               None None]> (jobs w0))
                    (<[id ++ "/research.json" :=
                         JObject
                           [("product", json_of_field (product spec));
                            ("audience", json_of_field (audience spec));
                            ("tone", json_of_field (tone spec));
                            ("task", JString "research");
                            ("instructions",
                             JArray (JString <$>
                               ["Analyze the target audience and their pain points";
                                "Research competitors and their messaging strategies";
                                "Identify key value propositions for the product";
                                "Generate insights for content creation"]))]]>
                       (s3 w0))
                    (sent w0 ++ [taskMessage id "research" research
                                   (WebJobs.routerNow env)])
                    (deleted w0)) as Hworld.
  { intros w0. rewrite postJobs_world by done. rewrite Hadm. reflexivity. }
  destruct (WebJobs.bucket_configured env); simpl;
    rewrite Hcreate, Hworld; simpl; (split_and!; [done| | |done]);
    try (by rewrite lookup_insert_eq);
    (eexists; split; [by rewrite lookup_insert_eq|]);
    repeat constructor.
Qed.

Lemma X24_web_post_admits_under_minted_id_witness :
  let ww := mkWebWorld ∅ initial in
  let env := WebJobs.mkEnv 1000 false "a1" true 1001 "0000" in
  let spec := mkJobSpec (Some "Acme Widget") (Some "Developers") None (Some "mine") in
  let rq := mkRequest (Some "10.0.0.1") None (Some spec) in
  (WebJobs.checkRateLimit (WebJobs.now env) (WebJobs.getClientIP rq)
     (rateLimitStore ww)).1 = true
  ∧ truthy (product spec) = true
  ∧ truthy (audience spec) = true
  ∧ WebJobs.uuid env ≠ ""
  ∧ (WebJobs.POST env rq ww).1 = mkResponse 201 [] (JobCreated "a1").
Proof.
  assert (WebJobs.uuid (WebJobs.mkEnv 1000 false "a1" true 1001 "0000") ≠ "")
    as Hid by discriminate.
  split; [vm_compute; reflexivity|]. split; [reflexivity|]. split; [reflexivity|].
  split; [exact Hid|].
  exact (proj1 (X24_web_post_admits_under_minted_id
                  (WebJobs.mkEnv 1000 false "a1" true 1001 "0000")
                  (mkRequest (Some "10.0.0.1") None
                     (Some (mkJobSpec (Some "Acme Widget") (Some "Developers") None
                              (Some "mine"))))
                  _ (mkWebWorld ∅ initial) eq_refl eq_refl eq_refl eq_refl Hid)).
Defined.

(** ** The address a request is limited under *)

Section ClientIPFacts.
Import WebJobs.

Lemma chars_rev_app s1 s2 :
  list_ascii_of_string (String.rev_app s1 s2)
  = (reverse (list_ascii_of_string s1) ++ list_ascii_of_string s2)%list.
Proof.
  revert s2. induction s1 as [|a s1 IH]; intros s2; [done|].
  simpl. rewrite IH, reverse_cons. simpl. by rewrite <- app_assoc.
Qed.

Lemma chars_rev s :
  list_ascii_of_string (String.rev s) = reverse (list_ascii_of_string s).
Proof. unfold String.rev. rewrite chars_rev_app. simpl. by rewrite app_nil_r. Qed.

(** [trimStart] cuts a prefix and stops at a character that is no white
    space. *)
Lemma chars_trimStart s :
  (∃ pre, list_ascii_of_string s
          = (pre ++ list_ascii_of_string (trimStart s))%list)
  ∧ ∀ c, head (list_ascii_of_string (trimStart s)) = Some c →
         isWhiteSpace c = false.
Proof.
  induction s as [|a s [[pre IHpre] IHhd]]; simpl.
  - split; [by exists []|done].
  - destruct (isWhiteSpace a) eqn:Ha.
    + split; [|done]. exists (a :: pre). simpl. by rewrite <- IHpre.
    + split; [by exists []|]. simpl. by intros c [= <-].
Qed.

Lemma chars_split_comma_0 s :
  ","%char ∉ list_ascii_of_string (split_comma_0 s).
Proof.
  induction s as [|a s IH]; [apply not_elem_of_nil|].
  cbn [split_comma_0].
  destruct (Ascii.eqb a ","%char) eqn:Heq; [simpl; apply not_elem_of_nil|].
  apply Ascii.eqb_neq in Heq.
  cbn [list_ascii_of_string]. intros [Heq'|Hin]%elem_of_cons; [by symmetry in Heq'|done].
Qed.

Lemma chars_trim_subset s c :
  c ∈ list_ascii_of_string (trim s) → c ∈ list_ascii_of_string s.
Proof.
  unfold trim. rewrite chars_rev, elem_of_reverse. intros Hin.
  destruct (chars_trimStart (String.rev (trimStart s))) as [[pre1 H1] _].
  assert (c ∈ list_ascii_of_string (String.rev (trimStart s))) as Hin1
    by (rewrite H1; apply elem_of_app; by right).
  rewrite chars_rev, elem_of_reverse in Hin1.
  destruct (chars_trimStart s) as [[pre0 H0] _].
  rewrite H0. apply elem_of_app. by right.
Qed.

Lemma chars_trim_ends s c :
  head (list_ascii_of_string (trim s)) = Some c
  ∨ last (list_ascii_of_string (trim s)) = Some c →
  isWhiteSpace c = false.
Proof.
  unfold trim. rewrite chars_rev, head_reverse, last_reverse.
  destruct (chars_trimStart (String.rev (trimStart s))) as [[pre1 H1] Hhd1].
  destruct (chars_trimStart s) as [_ Hhd0].
  intros [Hlast|Hhead]; [|by apply Hhd1].
  assert (last (list_ascii_of_string (String.rev (trimStart s))) = Some c) as Hl.
  { rewrite H1, last_app, Hlast. done. }
  rewrite chars_rev, last_reverse in Hl. by apply Hhd0.
Qed.

End ClientIPFacts.

(** X25: when a request carries a non-empty x-forwarded-for header, the
    address it is limited under is taken from that header alone, whatever
    x-real-ip says; it contains no comma and neither starts nor ends with
    white space, the no-break space included. Without either header the
    address is "localhost". *)
Theorem X25_client_address_from_forwarded_header (rq : Request) :
  (truthy (x_forwarded_for rq) = true →
   let ip := WebJobs.getClientIP rq in
   ip = WebJobs.getClientIP (mkRequest (x_forwarded_for rq) None (json rq))
   ∧ (","%char ∉ list_ascii_of_string ip)
   ∧ ∀ c, head (list_ascii_of_string ip) = Some c
          ∨ last (list_ascii_of_string ip) = Some c →
          WebJobs.isWhiteSpace c = false
          ∧ c ∉ [" "; "009"; "010"; "011"; "012"; "013"; "160"]%char)
  ∧ (truthy (x_forwarded_for rq) = false → truthy (x_real_ip rq) = false →
     WebJobs.getClientIP rq = "localhost").
Proof.
  unfold WebJobs.getClientIP. simpl. split.
  - intros ->. split_and!.
    + done.
    + intros Hin. apply chars_trim_subset in Hin.
      by apply chars_split_comma_0 in Hin.
    + intros c Hc. apply chars_trim_ends in Hc. split; [done|].
      intros Hin. apply list_elem_of_In in Hin. simpl in Hin.
      repeat (destruct Hin as [<-|Hin]; [discriminate Hc|]). exact Hin.
  - by intros -> ->.
Qed.

Lemma X25_client_address_from_forwarded_header_witness :
  let rq := mkRequest (Some (String "160" "  10.0.0.1 , 172.16.0.9"))
                      (Some "192.168.0.1") None in
  truthy (x_forwarded_for rq) = true
  ∧ WebJobs.getClientIP rq = "10.0.0.1"
  ∧ (","%char ∉ list_ascii_of_string (WebJobs.getClientIP rq)).
Proof.
  split; [reflexivity|]. split; [vm_compute; reflexivity|].
  exact (proj1 (proj2 (proj1 (X25_client_address_from_forwarded_header
                                (mkRequest
                                   (Some (String "160" "  10.0.0.1 , 172.16.0.9"))
                                   (Some "192.168.0.1") None)) eq_refl))).
Defined.

(** ** The two descriptions of the stage order *)

Section OrderFacts.

Lemma completeTask_dom now e (m : gmap string JobStatus) :
  dom (JobStateManager.completeTask now e m).1 = dom m.
Proof.
  unfold JobStateManager.completeTask.
  destruct (m !! job_id e) as [job|] eqn:Hjob; [|done].
  assert (job_id e ∈ dom m) as Hin by (apply elem_of_dom; eauto).
  destruct (ev_status e); simpl; try done;
    try destruct (JobStateManager.allTasksComplete _); simpl;
    rewrite dom_insert_L; by apply subseteq_union_1_L, singleton_subseteq_l.
Qed.

End OrderFacts.

(** X26: the dispatch and the index agree on the stage order. For a job
    whose completed stages are the first [k] canonical stages, when the
    success of the next canonical stage is reported and its dispatch does
    not throw, the one message [handleTaskCompletion] sends is a task
    message for the canonical stage after it, and that is the very stage
    [getNextTasks] names for the job afterwards. *)
Theorem X26_dispatch_follows_getNextTasks
        (now : Z) (e : CompletionEvent) (w : World) (job : JobStatus)
        (k : nat) (next : string) :
  jobs w !! job_id e = Some job →
  ev_status e = st_success →
  completedTasks job = take k JobStateManager.requiredTasks →
  JobStateManager.requiredTasks !! k = Some (task_type e) →
  JobStateManager.requiredTasks !! S k = Some next →
  (TaskRouter.handleTaskCompletion now (job_id e) (task_type e) w).1 = Ok tt →
  let w' := (TaskRouterApp.onCompletionEvent now e w).2 in
  (∃ q, sent w' = (sent w ++ [taskMessage (job_id e) next q now])%list)
  ∧ JobStateManager.getNextTasks (job_id e) (jobs w') = [next].
Proof.
  intros Hjob Hst Hdone Hk Hnext Hok w'.
  assert (∃ q suffix, successor (task_type e) = Some (next, q, suffix)
                      ∧ JobStateManager.allTasksComplete
                          (JobStateManager.addTask (task_type e) job) = false
                      ∧ JobStateManager.getNextTasks (job_id e)
                          (<[job_id e := JobStateManager.addTask (task_type e) job]>
                             (jobs w)) = [next])
    as (q & suffix & Hsucc & Hopen & Hget).
  { unfold JobStateManager.getNextTasks, JobStateManager.allTasksComplete,
      JobStateManager.addTask, JobStateManager.push.
    rewrite lookup_insert_eq, Hdone.
    destruct k as [|[|[|[|[|k]]]]]; simpl in Hk, Hnext; simplify_eq;
      rewrite <- Hk; do 2 eexists; (split; [vm_compute; reflexivity|]);
      split; reflexivity. }
  destruct (s3 w !! (job_id e ++ suffix)) as [d|] eqn:Hart.
  - subst w'. rewrite (onCompletionEvent_success_open now e w job Hjob Hst Hopen).
    simpl. split; [|exact Hget]. exists q.
    by destruct (handleTaskCompletion_dispatch now (job_id e) (task_type e) w
                   next q suffix d Hsucc Hart) as (_ & Hs & _).
  - by rewrite (handleTaskCompletion_missing now (job_id e) (task_type e) w
                  next q suffix Hsucc Hart) in Hok.
Qed.

Lemma X26_dispatch_follows_getNextTasks_witness :
  let e := mkEvent "J4" "product_manager" st_success None in
  let job := mkJobStatus "J4" in_progress ["research"] 0 None None in
  let w := agentStores [("J4/product-manager-result.json", JObject [])] J4_world in
  jobs w !! job_id e = Some job
  ∧ ev_status e = st_success
  ∧ completedTasks job = take 1 JobStateManager.requiredTasks
  ∧ JobStateManager.requiredTasks !! 1%nat = Some (task_type e)
  ∧ JobStateManager.requiredTasks !! 2%nat = Some "drawer"
  ∧ (TaskRouter.handleTaskCompletion 20 (job_id e) (task_type e) w).1 = Ok tt
  ∧ JobStateManager.getNextTasks "J4"
      (jobs (TaskRouterApp.onCompletionEvent 20 e w).2) = ["drawer"].
Proof.
  set (w := agentStores [("J4/product-manager-result.json", JObject [])] J4_world).
  assert (jobs w !! "J4"
          = Some (mkJobStatus "J4" in_progress ["research"] 0 None None)) as Hjob
    by (vm_compute; reflexivity).
  assert ((TaskRouter.handleTaskCompletion 20 "J4" "product_manager" w).1 = Ok tt)
    as Hok by (vm_compute; reflexivity).
  split; [exact Hjob|]. split; [reflexivity|]. split; [reflexivity|].
  split; [reflexivity|]. split; [reflexivity|]. split; [exact Hok|].
  exact (proj2 (X26_dispatch_follows_getNextTasks 20
                  (mkEvent "J4" "product_manager" st_success None) w _ 1 "drawer"
                  Hjob eq_refl eq_refl eq_refl eq_refl Hok)).
Defined.

(** X27: completion events never create and never remove a record: after
    any batch from the events queue the index holds exactly the ids it
    held before, so the total of the statistics is unchanged. *)
Theorem X27_events_keep_the_set_of_jobs
        (messages : list (Z * SQSMessaging.Message)) (w : World) :
  dom (jobs (TaskRouterApp.startEventConsumer messages w).2) = dom (jobs w)
  ∧ JobStateManager.total
      (JobStateManager.getStats (jobs (TaskRouterApp.startEventConsumer messages w).2))
    = JobStateManager.total (JobStateManager.getStats (jobs w)).
Proof.
  assert (dom (jobs (TaskRouterApp.startEventConsumer messages w).2) = dom (jobs w))
    as Hdom.
  { unfold TaskRouterApp.startEventConsumer. revert w.
    induction messages as [|[now msg] rest IH]; intros w; [done|].
    rewrite consumeEvents_cons, IH, consumeMessage_jobs.
    destruct (SQSMessaging.MsgBody msg); [done|apply completeTask_dom]. }
  split; [exact Hdom|]. simpl.
  by rewrite <- !size_dom, Hdom.
Qed.
